(** * hf-model-tracker: the multi-phase fetch pipeline and the HFModel schema

    A shallow embedding of [core_samples/fetch_models.py] (class
    [ModelFetcher]) and of the [HFModel] declaration of
    [schemas/db_models.py], followed by the properties of the
    deduplicating merge, of the failure handling of the two fetch
    strategies and of the schema defaults. *)

From Stdlib Require Import List ZArith Bool String Lia.
Import ListNotations.
Local Open Scope string_scope.
Local Open Scope Z_scope.
Local Open Scope list_scope.
Set Warnings "-register-all".

(* ================================================================== *)
(** ** Decoded JSON values *)

(** What [response.json()] yields.  A JSON object is the list of its
    bindings in document order (a decoded object has no repeated key).
    Numbers are carried by their integer value; fractional numbers are
    outside this model. *)
Inductive json : Type :=
| JNull
| JBool (b : bool)
| JNum (z : Z)
| JStr (s : string)
| JList (l : list json)
| JDict (d : list (string * json)).

(** Exceptions that can travel through the fetcher. *)
Inductive exn : Type :=
| Timeout                 (* requests.exceptions.Timeout *)
| ConnectionError         (* any other transport failure *)
| HTTPError (status : Z)  (* raised by raise_for_status *)
| JSONDecodeError         (* raised by response.json() *)
| AttributeError          (* .get on something that is no dict *)
| TypeError.              (* unhashable dictionary key *)

Inductive result (A : Type) : Type :=
| Ok (a : A)
| Raise (e : exn).
Arguments Ok {A} a.
Arguments Raise {A} e.

(* ------------------------------------------------------------------ *)
(** ** Dictionary keys *)

(** The hashable values a decoded JSON document can contain, up to
    Python's key equality: [True == 1] and [False == 0] hash alike, so
    booleans and integers share [KInt]. *)
Inductive pykey : Type :=
| KNone
| KInt (z : Z)
| KStr (s : string).

Definition pykey_eqb (a b : pykey) : bool :=
  match a, b with
  | KNone, KNone => true
  | KInt x, KInt y => Z.eqb x y
  | KStr x, KStr y => String.eqb x y
  | _, _ => false
  end.

(** [hash(v)]: lists and dicts are unhashable. *)
Definition py_hash (v : json) : result pykey :=
  match v with
  | JNull => Ok KNone
  | JBool b => Ok (KInt (if b then 1 else 0))
  | JNum z => Ok (KInt z)
  | JStr s => Ok (KStr s)
  | JList _ => Raise TypeError
  | JDict _ => Raise TypeError
  end.

(** Lookup in the bindings of a decoded object. *)
Fixpoint assoc (k : string) (d : list (string * json)) : option json :=
  match d with
  | [] => None
  | (k', v) :: rest => if String.eqb k k' then Some v else assoc k rest
  end.

(** [model.get("id")]: [None] when the field is absent, and an
    [AttributeError] when [model] is not a dict. *)
Definition get_id (model : json) : result json :=
  match model with
  | JDict d => Ok (match assoc "id" d with Some v => v | None => JNull end)
  | _ => Raise AttributeError
  end.

(* ------------------------------------------------------------------ *)
(** ** The insertion-ordered dictionary [unique_models] *)

Definition odict : Type := list (pykey * json).

(** [d[k] = v]: an existing key keeps its position and takes the new
    value, a new key goes to the end. *)
Fixpoint dict_set (k : pykey) (v : json) (d : odict) : odict :=
  match d with
  | [] => [(k, v)]
  | (k', v') :: rest =>
      if pykey_eqb k k' then (k', v) :: rest
      else (k', v') :: dict_set k v rest
  end.

Fixpoint dict_get (k : pykey) (d : odict) : option json :=
  match d with
  | [] => None
  | (k', v') :: rest => if pykey_eqb k k' then Some v' else dict_get k rest
  end.

Definition dict_keys (d : odict) : list pykey := map fst d.

(** [list(d.values())] *)
Definition dict_values (d : odict) : list json := map snd d.

(** [unique_models[model.get("id")] = model] *)
Definition store_model (model : json) (d : odict) : result odict :=
  match get_id model with
  | Raise e => Raise e
  | Ok idv =>
      match py_hash idv with
      | Raise e => Raise e
      | Ok k => Ok (dict_set k model d)
      end
  end.

(** One phase loop: [for model in data: unique_models[model.get("id")] = model]. *)
Fixpoint for_models (data : list json) (d : odict) : result odict :=
  match data with
  | [] => Ok d
  | model :: rest =>
      match store_model model d with
      | Raise e => Raise e
      | Ok d' => for_models rest d'
      end
  end.

(* ================================================================== *)
(** ** The fetcher, the network and the log *)

(** [self.timeout] and [self.headers]. *)
Record ModelFetcher : Type := {
  timeout : Z;
  headers : list (string * string)
}.

Definition BASE_URL : string := "https://huggingface.co/api/models".

(** [__init__]: [HF_TOKEN] is the value of the environment variable
    ([None] when unset); an empty token is falsy as well. *)
Definition ModelFetcher_init (HF_TOKEN : option string) (timeout : Z)
  : ModelFetcher :=
  {| timeout := timeout;
     headers := match HF_TOKEN with
                | Some tok =>
                    if String.eqb tok "" then []
                    else [("Authorization", ("Bearer " ++ tok)%string)]
                | None => []
                end |}.

Definition default_timeout : Z := 45.
Definition default_global_limit : Z := 1000.
Definition default_category_limit : Z := 200.

Inductive param : Type :=
| PInt (z : Z)
| PStr (s : string)
| PBool (b : bool).

(** One call of [requests.get]. *)
Record request : Type := {
  req_url : string;
  req_params : list (string * param);
  req_headers : list (string * string);
  req_timeout : Z
}.

(** How a call ends: the two exception classes the code tells apart, or
    a response with its status code and its body ([None] when the body
    does not decode as JSON). *)
Inductive http_outcome : Type :=
| NetTimeout
| NetError
| NetResponse (status : Z) (body : option json).

Record response : Type := {
  status_code : Z;
  body : option json
}.

Inductive log_event : Type :=
| GlobalFetchInitiated (limit : Z) (sort_by : string)
| Extracted (n : nat) (sort_by : string)
| TimeoutDuringGlobalFetch (sort_by : string)
| GlobalFetchFailed (e : exn)
| CategoryFetchFailed (pipeline_tag library : string) (e : exn)
| PhaseStarted (n : nat)
| EtlComplete (n : nat).

Inductive level : Type := INFO | SUCCESS | WARNING | ERROR.

(** The fetcher object, the requests sent so far and the log written so
    far. *)
Record state : Type := {
  self : ModelFetcher;
  sent : list request;
  log : list (level * log_event)
}.

(** Computations that read and write the state and may raise. *)
Definition M (A : Type) : Type := state -> result A * state.

Definition ret {A} (a : A) : M A := fun st => (Ok a, st).

Definition bind {A B} (m : M A) (k : A -> M B) : M B :=
  fun st =>
    match m st with
    | (Ok a, st') => k a st'
    | (Raise e, st') => (Raise e, st')
    end.

Definition lift {A} (r : result A) : M A := fun st => (r, st).

(** [try: body except e: handler e] *)
Definition try_except {A} (body : M A) (handler : exn -> M A) : M A :=
  fun st =>
    match body st with
    | (Ok a, st') => (Ok a, st')
    | (Raise e, st') => handler e st'
    end.

Declare Scope monad_scope.
Delimit Scope monad_scope with monad.
Notation "x <- m ;; k" := (bind m (fun x => k))
  (at level 61, m at next level, right associativity) : monad_scope.
Notation "m ;; k" := (bind m (fun _ => k))
  (at level 61, right associativity) : monad_scope.
Local Open Scope monad_scope.

Definition get_self : M ModelFetcher := fun st => (Ok (self st), st).

Definition logger (lv : level) (ev : log_event) : M unit :=
  fun st =>
    (Ok tt, {| self := self st; sent := sent st;
               log := log st ++ [(lv, ev)] |}).

(** [response.raise_for_status()] raises on 4xx and 5xx. *)
Definition raise_for_status (r : response) : M unit :=
  if (400 <=? status_code r) && (status_code r <? 600)
  then lift (Raise (HTTPError (status_code r)))
  else ret tt.

(** [response.json()] *)
Definition response_json (r : response) : M json :=
  match body r with
  | Some j => ret j
  | None => lift (Raise JSONDecodeError)
  end.

Section Fetcher.

(** The remote end: what the next request is answered with, given the
    requests already sent. *)
Variable remote : list request -> request -> http_outcome.

(** [requests.get(url, params=..., headers=..., timeout=...)] *)
Definition requests_get (url : string) (params : list (string * param))
    (hdrs : list (string * string)) (tmo : Z) : M response :=
  fun st =>
    let req := {| req_url := url; req_params := params;
                  req_headers := hdrs; req_timeout := tmo |} in
    let st' := {| self := self st; sent := sent st ++ [req];
                  log := log st |} in
    match remote (sent st) req with
    | NetTimeout => (Raise Timeout, st')
    | NetError => (Raise ConnectionError, st')
    | NetResponse status b =>
        (Ok {| status_code := status; body := b |}, st')
    end.

Definition fetch_global_top_models (limit : Z) (sort_by : string)
  : M (list json) :=
  logger INFO (GlobalFetchInitiated limit sort_by) ;;
  let params := [("limit", PInt limit);
                 ("sort", PStr sort_by);
                 ("direction", PInt (-1));
                 ("full", PBool true)] in
  try_except
    (this <- get_self ;;
     response <- requests_get BASE_URL params (headers this) (timeout this) ;;
     raise_for_status response ;;
     data <- response_json response ;;
     match data with
     | JList l =>
         logger SUCCESS (Extracted (List.length l) sort_by) ;;
         ret l
     | _ => ret []
     end)
    (fun e =>
       match e with
       | Timeout =>
           logger ERROR (TimeoutDuringGlobalFetch sort_by) ;;
           ret []
       | _ =>
           logger ERROR (GlobalFetchFailed e) ;;
           ret []
       end).

Definition fetch_category_specific (pipeline_tag library : string)
    (limit : Z) : M json :=
  let params := [("pipeline_tag", PStr pipeline_tag);
                 ("library", PStr library);
                 ("limit", PInt limit);
                 ("sort", PStr "downloads")] in
  try_except
    (this <- get_self ;;
     response <- requests_get BASE_URL params (headers this) 25 ;;
     raise_for_status response ;;
     response_json response)
    (fun e =>
       logger WARNING (CategoryFetchFailed pipeline_tag library e) ;;
       ret (JList [])).

Definition run_etl_pipeline : M (list json) :=
  let unique_models : odict := [] in
  (* Phase 1: Global Popularity *)
  logger INFO (PhaseStarted 1) ;;
  data <- fetch_global_top_models 1000 "downloads" ;;
  unique_models <- lift (for_models data unique_models) ;;
  (* Phase 2: Community Favorites *)
  logger INFO (PhaseStarted 2) ;;
  data <- fetch_global_top_models 1000 "likes" ;;
  unique_models <- lift (for_models data unique_models) ;;
  (* Phase 3: Trending Momentum *)
  logger INFO (PhaseStarted 3) ;;
  data <- fetch_global_top_models 1000 "likes7d" ;;
  unique_models <- lift (for_models data unique_models) ;;
  (* Phase 4: Fresh Content *)
  logger INFO (PhaseStarted 4) ;;
  data <- fetch_global_top_models 100 "createdAt" ;;
  unique_models <- lift (for_models data unique_models) ;;
  logger SUCCESS (EtlComplete (List.length unique_models)) ;;
  ret (dict_values unique_models).

End Fetcher.

(* ================================================================== *)
(** ** The HFModel schema *)

(** Values a caller can pass for a field.  Timestamps are seconds on the
    clock [datetime.now] reads. *)
Inductive pyval : Type :=
| VNone
| VBool (b : bool)
| VInt (z : Z)
| VStr (s : string)
| VDatetime (t : Z).

Record HFModel : Type := {
  model_id : string;
  pipeline_tag : option string;
  library_name : option string;
  author : option string;
  downloads : Z;
  likes : Z;
  private : bool;
  is_active : bool;
  last_modified : option Z;
  created_at : Z
}.

(** Validation either yields the value or names the offending field. *)
Inductive validated (A : Type) : Type :=
| Valid (a : A)
| Invalid (field : string).
Arguments Valid {A} a.
Arguments Invalid {A} field.

Fixpoint kwarg (name : string) (input : list (string * pyval))
  : option pyval :=
  match input with
  | [] => None
  | (n, v) :: rest => if String.eqb name n then Some v else kwarg name rest
  end.

(** How pydantic validates a value against each of the types the
    schema names.  The library is no part of these sources, so its type
    validators are taken as given; [None] stands for a refused value. *)
Record type_validators : Type := {
  validate_str : pyval -> option string;
  validate_int : pyval -> option Z;
  validate_bool : pyval -> option bool;
  validate_datetime : pyval -> option Z
}.

(** The validators of pydantic's strict mode: a value passes when it
    has the declared type, and only then. *)
Definition strict_validators : type_validators :=
  {| validate_str := fun v => match v with VStr s => Some s | _ => None end;
     validate_int := fun v => match v with VInt z => Some z | _ => None end;
     validate_bool := fun v => match v with VBool b => Some b | _ => None end;
     validate_datetime :=
       fun v => match v with VDatetime t => Some t | _ => None end |}.

(** [Field(...)]: a required field. *)
Definition required {A} (check : string -> pyval -> validated A)
    (name : string) (input : list (string * pyval)) : validated A :=
  match kwarg name input with
  | Some v => check name v
  | None => Invalid name
  end.

(** A field with a default, used when the caller gives no value. *)
Definition with_default {A} (check : string -> pyval -> validated A)
    (name : string) (default : A) (input : list (string * pyval))
  : validated A :=
  match kwarg name input with
  | Some v => check name v
  | None => Valid default
  end.

Definition vbind {A B} (m : validated A) (k : A -> validated B)
  : validated B :=
  match m with
  | Valid a => k a
  | Invalid f => Invalid f
  end.

(** [Optional[T]]: [None], or a value that validates as [T]. *)
Definition as_optional {A} (check : string -> pyval -> validated A)
    (name : string) (v : pyval) : validated (option A) :=
  match v with
  | VNone => Valid None
  | _ => vbind (check name v) (fun a => Valid (Some a))
  end.

Section Schema.

Variable V : type_validators.

(** The check of a field.  No [Field] declaration of [HFModel] carries
    a bound or any other constraint, so the check of a field is the
    check of its type. *)
Definition as_str (name : string) (v : pyval) : validated string :=
  match validate_str V v with Some s => Valid s | None => Invalid name end.

Definition as_int (name : string) (v : pyval) : validated Z :=
  match validate_int V v with Some z => Valid z | None => Invalid name end.

Definition as_bool (name : string) (v : pyval) : validated bool :=
  match validate_bool V v with Some b => Valid b | None => Invalid name end.

Definition as_datetime (name : string) (v : pyval) : validated Z :=
  match validate_datetime V v with
  | Some t => Valid t
  | None => Invalid name
  end.

(** Construction of an [HFModel] from keyword arguments [input], with
    [now] the value [datetime.now()] returns when the default factory
    of [created_at] runs. *)
Definition validate_HFModel (now : Z) (input : list (string * pyval))
  : validated HFModel :=
  vbind (required as_str "model_id" input) (fun model_id =>
  vbind (with_default (as_optional as_str) "pipeline_tag" None input)
    (fun pipeline_tag =>
  vbind (with_default (as_optional as_str) "library_name" None input)
    (fun library_name =>
  vbind (with_default (as_optional as_str) "author" None input)
    (fun author =>
  vbind (with_default as_int "downloads" 0 input) (fun downloads =>
  vbind (with_default as_int "likes" 0 input) (fun likes =>
  vbind (with_default as_bool "private" false input) (fun private =>
  vbind (with_default as_bool "is_active" true input) (fun is_active =>
  vbind (with_default (as_optional as_datetime) "last_modified" None input)
    (fun last_modified =>
  vbind (with_default as_datetime "created_at" now input) (fun created_at =>
  Valid {| model_id := model_id;
           pipeline_tag := pipeline_tag;
           library_name := library_name;
           author := author;
           downloads := downloads;
           likes := likes;
           private := private;
           is_active := is_active;
           last_modified := last_modified;
           created_at := created_at |})))))))))).

End Schema.

(** A record with another download count, or another like count. *)
Definition with_downloads (z : Z) (m : HFModel) : HFModel :=
  {| model_id := model_id m;
     pipeline_tag := pipeline_tag m;
     library_name := library_name m;
     author := author m;
     downloads := z;
     likes := likes m;
     private := private m;
     is_active := is_active m;
     last_modified := last_modified m;
     created_at := created_at m |}.

Definition with_likes (z : Z) (m : HFModel) : HFModel :=
  {| model_id := model_id m;
     pipeline_tag := pipeline_tag m;
     library_name := library_name m;
     author := author m;
     downloads := downloads m;
     likes := z;
     private := private m;
     is_active := is_active m;
     last_modified := last_modified m;
     created_at := created_at m |}.

(* ================================================================== *)
(** ** Vocabulary of the statements *)

(** The dictionary key a record is stored under. *)
Definition model_key (model : json) : result pykey :=
  match get_id model with
  | Raise e => Raise e
  | Ok idv => py_hash idv
  end.

Definition has_key (k : pykey) (model : json) : bool :=
  match model_key model with
  | Ok k' => pykey_eqb k k'
  | Raise _ => false
  end.

(** Number of records of [rs] whose identifier is [k]. *)
Definition count_key (k : pykey) (rs : list json) : nat :=
  List.length (filter (has_key k) rs).

(** The first record of [rs] whose identifier is [k]. *)
Definition find_key (k : pykey) (rs : list json) : option json :=
  find (has_key k) rs.

(** The last record of [rs], in processing order, whose identifier is [k]. *)
Fixpoint last_with_key (k : pykey) (rs : list json) : option json :=
  match rs with
  | [] => None
  | r :: rest =>
      match last_with_key k rest with
      | Some r' => Some r'
      | None => if has_key k r then Some r else None
      end
  end.

(** The identifiers of the records of [rs], in order, repeats included. *)
Fixpoint keys_of (rs : list json) : list pykey :=
  match rs with
  | [] => []
  | r :: rest =>
      match model_key r with
      | Ok k => k :: keys_of rest
      | Raise _ => keys_of rest
      end
  end.

(** Every key once, at the place of its first occurrence. *)
Fixpoint first_occurrences (ks : list pykey) : list pykey :=
  match ks with
  | [] => []
  | k :: rest =>
      k :: filter (fun k' => negb (pykey_eqb k k')) (first_occurrences rest)
  end.

(** A record, i.e. a mapping, whose ["id"] is missing or null. *)
Definition missing_or_null_id (model : json) : bool :=
  match model with
  | JDict d =>
      match assoc "id" d with
      | None => true
      | Some JNull => true
      | Some _ => false
      end
  | _ => false
  end.

(** A record with an identifier a dictionary can be keyed by. *)
Definition well_keyed (model : json) : Prop :=
  exists k, model_key model = Ok k.

(** Adding a key to the ordered key list of a dictionary. *)
Definition add_key (k : pykey) (ks : list pykey) : list pykey :=
  if existsb (pykey_eqb k) ks then ks else ks ++ [k].

(** Every stored record sits under its own identifier. *)
Definition keyed_ok (d : odict) : Prop :=
  Forall (fun kv => model_key (snd kv) = Ok (fst kv)) d.

(** The request a global fetch sends. *)
Definition global_request (f : ModelFetcher) (limit : Z) (sort_by : string)
  : request :=
  {| req_url := BASE_URL;
     req_params := [("limit", PInt limit);
                    ("sort", PStr sort_by);
                    ("direction", PInt (-1));
                    ("full", PBool true)];
     req_headers := headers f;
     req_timeout := timeout f |}.

(** The request a targeted fetch sends. *)
Definition category_request (f : ModelFetcher)
    (pipeline_tag library : string) (limit : Z) : request :=
  {| req_url := BASE_URL;
     req_params := [("pipeline_tag", PStr pipeline_tag);
                    ("library", PStr library);
                    ("limit", PInt limit);
                    ("sort", PStr "downloads")];
     req_headers := headers f;
     req_timeout := 25 |}.

(** The four requests of a pipeline run, in order. *)
Definition etl_requests (f : ModelFetcher) : list request :=
  [global_request f 1000 "downloads";
   global_request f 1000 "likes";
   global_request f 1000 "likes7d";
   global_request f 100 "createdAt"].

(** The failures of the error taxonomy: a timeout, a transport error,
    an error status, a body that is no JSON, a body that is no list. *)
Definition is_failure (o : http_outcome) : bool :=
  match o with
  | NetTimeout => true
  | NetError => true
  | NetResponse status b =>
      if (400 <=? status) && (status <? 600) then true
      else match b with
           | Some (JList _) => false
           | _ => true
           end
  end.

(** What a global fetch returns on a given outcome of its request. *)
Definition fetched (o : http_outcome) : list json :=
  match o with
  | NetResponse status (Some (JList l)) =>
      if (400 <=? status) && (status <? 600) then [] else l
  | _ => []
  end.

Section PhaseResults.

Variable remote : list request -> request -> http_outcome.

(** The lists a series of global fetches returns, one after the other. *)
Fixpoint fetch_all (calls : list (Z * string)) (st : state)
  : list (list json) :=
  match calls with
  | [] => []
  | (limit, sort_by) :: rest =>
      match fetch_global_top_models remote limit sort_by st with
      | (Ok data, st') => data :: fetch_all rest st'
      | (Raise _, _) => []
      end
  end.

(** The results of the four phases of a run started in [st]. *)
Definition phase_results (st : state) : list (list json) :=
  fetch_all [(1000, "downloads"); (1000, "likes");
             (1000, "likes7d"); (100, "createdAt")] st.

End PhaseResults.

(** A remote end that answers the [n]-th request after the first [base]
    ones with the [n]-th outcome of a script. *)
Definition scripted (base : nat) (script : list http_outcome)
  : list request -> request -> http_outcome :=
  fun history _ => nth (List.length history - base) script NetError.

(** The script of four successful responses carrying the given lists. *)
Definition serving (ps : list (list json)) : list http_outcome :=
  map (fun p => NetResponse 200 (Some (JList p))) ps.

(* ------------------------------------------------------------------ *)
(** ** Concrete inputs *)

Definition fresh_state : state :=
  {| self := ModelFetcher_init None default_timeout; sent := []; log := [] |}.

Definition rec_a_first : json :=
  JDict [("id", JStr "a"); ("downloads", JNum 10)].
Definition rec_a_second : json :=
  JDict [("id", JStr "a"); ("downloads", JNum 0); ("likes", JNum 99)].
Definition rec_b : json := JDict [("id", JStr "b")].

Definition scenario_phases : list (list json) :=
  [[rec_a_first]; [rec_a_second]; []; [rec_b]].

Definition rec_no_id : json := JDict [("downloads", JNum 7)].
Definition rec_null_id : json := JDict [("id", JNull); ("likes", JNum 3)].

Definition error_object : json := JDict [("error", JStr "Too Many Requests")].

(** A first response whose list holds something that is no mapping. *)
Definition remote_bare_number : list request -> request -> http_outcome :=
  scripted 0 [NetResponse 200 (Some (JList [JNum 1]))].

(** Every request is answered by status 200 and an error object. *)
Definition remote_error_object : list request -> request -> http_outcome :=
  fun _ _ => NetResponse 200 (Some error_object).

(** Every request times out. *)
Definition remote_down : list request -> request -> http_outcome :=
  fun _ _ => NetTimeout.

(** The remote end of the scenario: four successful responses. *)
Definition remote_scenario : list request -> request -> http_outcome :=
  scripted 0 (serving scenario_phases).

Definition malformed_phases : list (list json) :=
  [[rec_no_id]; [rec_a_first]; [rec_null_id]; []].

Definition remote_malformed : list request -> request -> http_outcome :=
  scripted 0 (serving malformed_phases).


(* ================================================================== *)
(** ** The demo entry point *)

(** What the demo prints after the words Sample Data Point: the
    identifier of the first record, as a value, or No Data. *)
Inductive sample : Type :=
| SampleId (v : json)
| NoData.

(** How the demo ends: it prints its line, or an exception leaves it. *)
Inductive demo_outcome : Type :=
| Printed (s : sample)
| Uncaught (e : exn)
| UncaughtKeyError (key : string).

(** The body of [if __name__ == "__main__"], started with the given
    value of the environment variable and nothing sent or logged yet:
    [data[0]['id'] if data else 'No Data']. *)
Definition main (remote : list request -> request -> http_outcome)
    (HF_TOKEN : option string) : demo_outcome * state :=
  let st := {| self := ModelFetcher_init HF_TOKEN default_timeout;
               sent := []; log := [] |} in
  match run_etl_pipeline remote st with
  | (Raise e, st') => (Uncaught e, st')
  | (Ok data, st') =>
      match data with
      | [] => (Printed NoData, st')
      | first :: _ =>
          match first with
          | JDict d =>
              match assoc "id" d with
              | Some v => (Printed (SampleId v), st')
              | None => (UncaughtKeyError "id", st')
              end
          | _ => (Uncaught TypeError, st')
          end
      end
  end.

(* ================================================================== *)
(** ** The snapshot and the audit log schemas *)

(** Field values of these two schemas: those of [pyval], a
    [datetime.date] as a day number, a [uuid.UUID] as its 128 bit
    number. *)
Inductive field_value : Type :=
| Plain (v : pyval)
| VDate (day : Z)
| VUuid (u : N).

Fixpoint field (name : string) (input : list (string * field_value))
  : option field_value :=
  match input with
  | [] => None
  | (n, v) :: rest => if String.eqb name n then Some v else field name rest
  end.

(** pydantic's validation of a field value against each type these
    schemas name, taken as given like [type_validators]. *)
Record field_validators : Type := {
  fv_str : field_value -> option string;
  fv_int : field_value -> option Z;
  fv_bool : field_value -> option bool;
  fv_datetime : field_value -> option Z;
  fv_date : field_value -> option Z;
  fv_uuid : field_value -> option N
}.

(** Strict mode: a value passes when it has the declared type. *)
Definition strict_field_validators : field_validators :=
  {| fv_str := fun v => match v with Plain (VStr s) => Some s | _ => None end;
     fv_int := fun v => match v with Plain (VInt z) => Some z | _ => None end;
     fv_bool :=
       fun v => match v with Plain (VBool b) => Some b | _ => None end;
     fv_datetime :=
       fun v => match v with Plain (VDatetime t) => Some t | _ => None end;
     fv_date := fun v => match v with VDate d => Some d | _ => None end;
     fv_uuid := fun v => match v with VUuid u => Some u | _ => None end |}.

(** The check of a field of a given type: these declarations carry no
    constraint either. *)
Definition checked {A} (validate : field_value -> option A)
    (name : string) (v : field_value) : validated A :=
  match validate v with
  | Some a => Valid a
  | None => Invalid name
  end.

(** [Optional[T]] *)
Definition checked_optional {A} (validate : field_value -> option A)
    (name : string) (v : field_value) : validated (option A) :=
  match v with
  | Plain VNone => Valid None
  | _ => vbind (checked validate name v) (fun a => Valid (Some a))
  end.

(** A field without default: it has to be given, also when its type is
    [Optional]. *)
Definition required_field {A} (check : string -> field_value -> validated A)
    (name : string) (input : list (string * field_value)) : validated A :=
  match field name input with
  | Some v => check name v
  | None => Invalid name
  end.

Definition default_field {A} (check : string -> field_value -> validated A)
    (name : string) (default : A) (input : list (string * field_value))
  : validated A :=
  match field name input with
  | Some v => check name v
  | None => Valid default
  end.

Record ModelSnapshot : Type := {
  snap_id : Z;
  snap_model_id : string;
  snapshot_date : Z;
  snap_pipeline_tag : option string;
  snap_downloads : Z;
  snap_likes : Z;
  snap_is_active : bool
}.


Section MoreSchemas.

Variable W : field_validators.

Definition validate_ModelSnapshot (input : list (string * field_value))
  : validated ModelSnapshot :=
  vbind (required_field (checked (fv_int W)) "id" input) (fun id =>
  vbind (required_field (checked (fv_str W)) "model_id" input)
    (fun model_id =>
  vbind (required_field (checked (fv_date W)) "snapshot_date" input)
    (fun snapshot_date =>
  vbind (required_field (checked_optional (fv_str W)) "pipeline_tag" input)
    (fun pipeline_tag =>
  vbind (required_field (checked (fv_int W)) "downloads" input)
    (fun downloads =>
  vbind (required_field (checked (fv_int W)) "likes" input) (fun likes =>
  vbind (default_field (checked (fv_bool W)) "is_active" true input)
    (fun is_active =>
  Valid {| snap_id := id;
           snap_model_id := model_id;
           snapshot_date := snapshot_date;
           snap_pipeline_tag := pipeline_tag;
           snap_downloads := downloads;
           snap_likes := likes;
           snap_is_active := is_active |}))))))).


End MoreSchemas.

(* ------------------------------------------------------------------ *)
(** ** Further vocabulary *)

(** The exception the first record without a usable key raises. *)
Fixpoint first_failure (rs : list json) : option exn :=
  match rs with
  | [] => None
  | r :: rest =>
      match model_key r with
      | Raise e => Some e
      | Ok _ => first_failure rest
      end
  end.

(** The names of the declared fields of [HFModel]. *)
Definition HFModel_fields : list string :=
  ["model_id"; "pipeline_tag"; "library_name"; "author"; "downloads";
   "likes"; "private"; "is_active"; "last_modified"; "created_at"].

(* ------------------------------------------------------------------ *)
(** ** Further concrete inputs *)

Definition rec_list_id : json := JDict [("id", JList [JNum 1])].

(** The first phase fails, the others deliver. *)
Definition remote_first_down : list request -> request -> http_outcome :=
  scripted 0 [NetTimeout;
              NetResponse 200 (Some (JList [rec_a_second]));
              NetResponse 200 (Some (JList []));
              NetResponse 200 (Some (JList [rec_b]))].

(** The second phase delivers a record whose identifier is a list. *)
Definition remote_list_id : list request -> request -> http_outcome :=
  scripted 0 [NetResponse 200 (Some (JList [rec_a_first]));
              NetResponse 200 (Some (JList [rec_list_id]))].

(** One record, without identifier, in the first phase. *)
Definition remote_no_id : list request -> request -> http_outcome :=
  scripted 0 [NetResponse 200 (Some (JList [rec_no_id]))].

Definition snapshot_input : list (string * field_value) :=
  [("id", Plain (VInt 1)); ("model_id", Plain (VStr "org/name"));
   ("snapshot_date", VDate 19000); ("pipeline_tag", Plain VNone);
   ("downloads", Plain (VInt 10)); ("likes", Plain (VInt 2))].


(* ================================================================== *)
(** ** Keys and the ordered dictionary *)

Lemma pykey_eqb_eq (a b : pykey) : pykey_eqb a b = true <-> a = b.
Proof.
  destruct a as [|x|x], b as [|y|y]; simpl; split; intro H;
    try discriminate; try reflexivity.
  - apply Z.eqb_eq in H. now subst.
  - injection H as ->. apply Z.eqb_refl.
  - apply String.eqb_eq in H. now subst.
  - injection H as ->. apply String.eqb_refl.
Qed.

Lemma pykey_eqb_refl (a : pykey) : pykey_eqb a a = true.
Proof. now apply pykey_eqb_eq. Qed.

Lemma pykey_eqb_neq (a b : pykey) : pykey_eqb a b = false <-> a <> b.
Proof.
  split.
  - intros H E. apply pykey_eqb_eq in E. congruence.
  - intro H. destruct (pykey_eqb a b) eqn:E; [|reflexivity].
    apply pykey_eqb_eq in E. contradiction.
Qed.

Lemma pykey_eqb_sym (a b : pykey) : pykey_eqb a b = pykey_eqb b a.
Proof.
  destruct (pykey_eqb a b) eqn:E.
  - apply pykey_eqb_eq in E. subst. symmetry. apply pykey_eqb_refl.
  - symmetry. apply pykey_eqb_neq. apply pykey_eqb_neq in E. congruence.
Qed.

Lemma existsb_pykey (k : pykey) (ks : list pykey) :
  existsb (pykey_eqb k) ks = true <-> In k ks.
Proof.
  rewrite existsb_exists. split.
  - intros [x [Hin E]]. apply pykey_eqb_eq in E. now subst.
  - intro Hin. exists k. split; [assumption | apply pykey_eqb_refl].
Qed.

Lemma existsb_pykey_false (k : pykey) (ks : list pykey) :
  existsb (pykey_eqb k) ks = false <-> ~ In k ks.
Proof.
  rewrite <- existsb_pykey. destruct (existsb (pykey_eqb k) ks); intuition congruence.
Qed.

Lemma dict_keys_set (k : pykey) (v : json) (d : odict) :
  dict_keys (dict_set k v d) = add_key k (dict_keys d).
Proof.
  unfold add_key. induction d as [|[k' v'] rest IH]; simpl; [reflexivity|].
  destruct (pykey_eqb k k') eqn:E; simpl; [reflexivity|].
  fold (dict_keys (dict_set k v rest)). rewrite IH.
  fold (dict_keys rest).
  now destruct (existsb (pykey_eqb k) (dict_keys rest)).
Qed.

Lemma dict_get_set (k k' : pykey) (v : json) (d : odict) :
  dict_get k (dict_set k' v d) =
  if pykey_eqb k k' then Some v else dict_get k d.
Proof.
  induction d as [|[k2 v2] rest IH]; simpl.
  - now destruct (pykey_eqb k k').
  - destruct (pykey_eqb k' k2) eqn:E; simpl.
    + apply pykey_eqb_eq in E. subst k2.
      now destruct (pykey_eqb k k').
    + rewrite IH. destruct (pykey_eqb k k2) eqn:E2; [|reflexivity].
      apply pykey_eqb_eq in E2. subst k2.
      rewrite pykey_eqb_sym in E. now rewrite E.
Qed.

Lemma dict_get_in_keys (k : pykey) (d : odict) :
  dict_get k d <> None <-> In k (dict_keys d).
Proof.
  induction d as [|[k' v'] rest IH]; simpl.
  - intuition congruence.
  - destruct (pykey_eqb k k') eqn:E.
    + apply pykey_eqb_eq in E. subst. intuition congruence.
    + apply pykey_eqb_neq in E. rewrite IH. unfold dict_keys.
      intuition congruence.
Qed.

Lemma keyed_ok_set (k : pykey) (v : json) (d : odict) :
  keyed_ok d -> model_key v = Ok k -> keyed_ok (dict_set k v d).
Proof.
  unfold keyed_ok. intros Hd Hv.
  induction d as [|[k' v'] rest IH]; simpl.
  - constructor; [assumption | constructor].
  - inversion Hd as [|x l Hx Hl]; subst.
    destruct (pykey_eqb k k') eqn:E.
    + apply pykey_eqb_eq in E. subst k'. constructor; assumption.
    + constructor; [assumption | now apply IH].
Qed.

Lemma NoDup_snoc (k : pykey) (ks : list pykey) :
  NoDup ks -> ~ In k ks -> NoDup (ks ++ [k]).
Proof.
  induction ks as [|x ks IH]; simpl; intros Hnd Hni.
  - constructor; [intros [] | constructor].
  - inversion Hnd as [|y l Hy Hl]; subst. constructor.
    + rewrite in_app_iff. simpl. intuition congruence.
    + apply IH; intuition.
Qed.

Lemma NoDup_add_key (k : pykey) (ks : list pykey) :
  NoDup ks -> NoDup (add_key k ks).
Proof.
  intro H. unfold add_key. destruct (existsb (pykey_eqb k) ks) eqn:E.
  - assumption.
  - apply NoDup_snoc; [assumption | now apply existsb_pykey_false].
Qed.

Lemma In_add_key (k x : pykey) (ks : list pykey) :
  In x (add_key k ks) <-> x = k \/ In x ks.
Proof.
  unfold add_key. destruct (existsb (pykey_eqb k) ks) eqn:E.
  - apply existsb_pykey in E. split; [now right|]. intros [->|H]; assumption.
  - rewrite in_app_iff. simpl. intuition congruence.
Qed.

Lemma filter_filter_and {A} (P Q R : A -> bool) (l : list A) :
  (forall x, R x = Q x && P x) ->
  filter P (filter Q l) = filter R l.
Proof.
  intro H. induction l as [|x l IH]; simpl; [reflexivity|].
  rewrite H. destruct (Q x); simpl.
  - now rewrite IH.
  - assumption.
Qed.

Lemma fold_add_key_first_occurrences (ks acc : list pykey) :
  fold_left (fun seen k => add_key k seen) ks acc =
  acc ++ filter (fun k => negb (existsb (pykey_eqb k) acc))
                (first_occurrences ks).
Proof.
  revert acc. induction ks as [|k ks IH]; intro acc; simpl.
  - now rewrite app_nil_r.
  - rewrite IH. unfold add_key.
    destruct (existsb (pykey_eqb k) acc) eqn:E; simpl.
    + f_equal. symmetry. apply filter_filter_and. intro x.
      destruct (pykey_eqb k x) eqn:Ex; simpl; [|reflexivity].
      apply pykey_eqb_eq in Ex. subst x. now rewrite E.
    + rewrite <- app_assoc. simpl. f_equal. f_equal.
      symmetry. apply filter_filter_and. intro x.
      rewrite existsb_app. simpl. rewrite orb_false_r.
      rewrite (pykey_eqb_sym k x).
      destruct (existsb (pykey_eqb x) acc), (pykey_eqb x k); reflexivity.
Qed.

Lemma filter_true {A} (l : list A) : filter (fun _ => true) l = l.
Proof. induction l as [|x l IH]; simpl; congruence. Qed.

Lemma fold_add_key_nil (ks : list pykey) :
  fold_left (fun seen k => add_key k seen) ks [] = first_occurrences ks.
Proof.
  rewrite fold_add_key_first_occurrences. simpl. apply filter_true.
Qed.

Lemma In_fold_add_key (x : pykey) (ks acc : list pykey) :
  In x (fold_left (fun seen k => add_key k seen) ks acc) <->
  In x acc \/ In x ks.
Proof.
  revert acc. induction ks as [|k ks IH]; intro acc; simpl.
  - intuition.
  - rewrite IH, In_add_key. intuition congruence.
Qed.

Lemma NoDup_fold_add_key (ks acc : list pykey) :
  NoDup acc -> NoDup (fold_left (fun seen k => add_key k seen) ks acc).
Proof.
  revert acc. induction ks as [|k ks IH]; intros acc H; simpl.
  - assumption.
  - apply IH. now apply NoDup_add_key.
Qed.

Lemma NoDup_first_occurrences (ks : list pykey) :
  NoDup (first_occurrences ks).
Proof.
  rewrite <- fold_add_key_nil. apply NoDup_fold_add_key. constructor.
Qed.

Lemma In_first_occurrences (x : pykey) (ks : list pykey) :
  In x (first_occurrences ks) <-> In x ks.
Proof.
  rewrite <- fold_add_key_nil, In_fold_add_key. simpl. intuition.
Qed.

(* ------------------------------------------------------------------ *)
(** ** One phase loop *)

Lemma store_model_key (model : json) (d : odict) :
  store_model model d =
  match model_key model with
  | Ok k => Ok (dict_set k model d)
  | Raise e => Raise e
  end.
Proof.
  unfold store_model, model_key.
  destruct (get_id model) as [idv|e]; [|reflexivity].
  now destruct (py_hash idv).
Qed.

Lemma for_models_app (a b : list json) (d : odict) :
  for_models (a ++ b) d =
  match for_models a d with
  | Ok d' => for_models b d'
  | Raise e => Raise e
  end.
Proof.
  revert d. induction a as [|r a IH]; intro d; simpl; [reflexivity|].
  destruct (store_model r d) as [d1|e]; [apply IH | reflexivity].
Qed.

Lemma for_models_well_keyed (data : list json) (d d' : odict) :
  for_models data d = Ok d' -> Forall well_keyed data.
Proof.
  revert d. induction data as [|r data IH]; intros d H; simpl in H.
  - constructor.
  - rewrite store_model_key in H.
    destruct (model_key r) as [k|e] eqn:Ek; [|discriminate].
    constructor; [now exists k | eapply IH; eassumption].
Qed.

Lemma for_models_total (data : list json) (d : odict) :
  Forall well_keyed data -> exists d', for_models data d = Ok d'.
Proof.
  intro H. revert d. induction H as [|r data [k Hk] _ IH]; intro d; simpl.
  - now exists d.
  - rewrite store_model_key, Hk. apply IH.
Qed.

Lemma for_models_keys (data : list json) (d d' : odict) :
  for_models data d = Ok d' ->
  dict_keys d' =
  fold_left (fun seen k => add_key k seen) (keys_of data) (dict_keys d).
Proof.
  revert d. induction data as [|r data IH]; intros d H; simpl in *.
  - now injection H as ->.
  - rewrite store_model_key in H.
    destruct (model_key r) as [k|e]; [|discriminate].
    simpl. rewrite <- (dict_keys_set k r d). now apply IH.
Qed.

Lemma for_models_get (data : list json) (d d' : odict) :
  for_models data d = Ok d' ->
  forall k,
    dict_get k d' =
    match last_with_key k data with
    | Some r => Some r
    | None => dict_get k d
    end.
Proof.
  revert d. induction data as [|r data IH]; intros d H k; simpl in *.
  - now injection H as ->.
  - rewrite store_model_key in H. unfold has_key.
    destruct (model_key r) as [kr|e]; [|discriminate].
    rewrite (IH _ H k), dict_get_set.
    destruct (last_with_key k data); [reflexivity|].
    now destruct (pykey_eqb k kr).
Qed.

Lemma for_models_keyed_ok (data : list json) (d d' : odict) :
  for_models data d = Ok d' -> keyed_ok d -> keyed_ok d'.
Proof.
  revert d. induction data as [|r data IH]; intros d H Hd; simpl in *.
  - now injection H as <-.
  - rewrite store_model_key in H.
    destruct (model_key r) as [kr|e] eqn:Ek; [|discriminate].
    eapply IH; [eassumption|]. now apply keyed_ok_set.
Qed.

Lemma for_models_NoDup (data : list json) (d d' : odict) :
  for_models data d = Ok d' -> NoDup (dict_keys d) -> NoDup (dict_keys d').
Proof.
  intros H Hd. rewrite (for_models_keys _ _ _ H).
  now apply NoDup_fold_add_key.
Qed.

Lemma In_keys_of (k : pykey) (rs : list json) :
  In k (keys_of rs) <-> exists r, In r rs /\ model_key r = Ok k.
Proof.
  induction rs as [|r rs IH]; simpl.
  - split; [intros [] | intros [r [[] _]]].
  - destruct (model_key r) as [kr|e] eqn:Ek; simpl; rewrite IH; split.
    + intros [->|[r' [Hin Hk]]]; [exists r | exists r']; auto.
    + intros [r' [[->|Hin] Hk]]; [left; congruence | right; now exists r'].
    + intros [r' [Hin Hk]]. exists r'. auto.
    + intros [r' [[->|Hin] Hk]]; [congruence | now exists r'].
Qed.

Lemma keys_of_app (a b : list json) :
  keys_of (a ++ b) = keys_of a ++ keys_of b.
Proof.
  induction a as [|r a IH]; simpl; [reflexivity|].
  destruct (model_key r); simpl; now rewrite IH.
Qed.

Lemma last_with_key_Some (k : pykey) (rs : list json) (r : json) :
  last_with_key k rs = Some r -> In r rs /\ model_key r = Ok k.
Proof.
  induction rs as [|x rs IH]; simpl; [discriminate|].
  destruct (last_with_key k rs) as [r'|].
  - intro H. injection H as ->. destruct IH as [Hin Hk]; auto.
  - unfold has_key. destruct (model_key x) as [kx|e] eqn:Ex; [|discriminate].
    destruct (pykey_eqb k kx) eqn:E; [|discriminate].
    intro H. injection H as ->. apply pykey_eqb_eq in E. subst kx. auto.
Qed.

Lemma last_with_key_None (k : pykey) (rs : list json) :
  last_with_key k rs = None <-> ~ In k (keys_of rs).
Proof.
  induction rs as [|x rs IH]; simpl.
  - intuition.
  - unfold has_key. destruct (last_with_key k rs) as [r'|].
    + split; [discriminate|]. intro H. exfalso.
      assert (Hn : ~ In k (keys_of rs)).
      { intro Hin. apply H. destruct (model_key x); simpl; auto. }
      apply IH in Hn. discriminate.
    + destruct (model_key x) as [kx|e]; simpl.
      * destruct (pykey_eqb k kx) eqn:E.
        -- apply pykey_eqb_eq in E. subst. intuition congruence.
        -- apply pykey_eqb_neq in E. intuition congruence.
      * intuition.
Qed.

Lemma last_with_key_app (k : pykey) (a b : list json) :
  last_with_key k (a ++ b) =
  match last_with_key k b with
  | Some r => Some r
  | None => last_with_key k a
  end.
Proof.
  induction a as [|x a IH]; simpl.
  - now destruct (last_with_key k b).
  - rewrite IH. now destruct (last_with_key k b).
Qed.

(* ------------------------------------------------------------------ *)
(** ** From the dictionary to the returned list *)

Lemma find_key_values (k : pykey) (d : odict) :
  keyed_ok d -> find_key k (dict_values d) = dict_get k d.
Proof.
  unfold find_key, keyed_ok.
  induction 1 as [|[k' v'] rest Hk _ IH]; simpl; [reflexivity|].
  unfold has_key at 1. simpl in Hk. rewrite Hk.
  now destruct (pykey_eqb k k').
Qed.

Lemma map_model_key_values (d : odict) :
  keyed_ok d -> map model_key (dict_values d) = map Ok (dict_keys d).
Proof.
  unfold keyed_ok.
  induction 1 as [|[k' v'] rest Hk _ IH]; simpl; [reflexivity|].
  simpl in Hk. rewrite Hk. f_equal. exact IH.
Qed.

Lemma count_key_values (k : pykey) (d : odict) :
  keyed_ok d ->
  count_key k (dict_values d) =
  List.length (filter (pykey_eqb k) (dict_keys d)).
Proof.
  unfold count_key, keyed_ok.
  induction 1 as [|[k' v'] rest Hk _ IH]; simpl; [reflexivity|].
  unfold has_key at 1. simpl in Hk. rewrite Hk.
  destruct (pykey_eqb k k'); simpl; now rewrite <- IH.
Qed.

Lemma filter_pykey_absent (k : pykey) (ks : list pykey) :
  ~ In k ks -> filter (pykey_eqb k) ks = [].
Proof.
  induction ks as [|x ks IH]; simpl; intro H; [reflexivity|].
  destruct (pykey_eqb k x) eqn:E.
  - apply pykey_eqb_eq in E. subst. exfalso. auto.
  - apply IH. auto.
Qed.

Lemma count_NoDup (k : pykey) (ks : list pykey) :
  NoDup ks ->
  List.length (filter (pykey_eqb k) ks) =
  if existsb (pykey_eqb k) ks then 1%nat else 0%nat.
Proof.
  induction 1 as [|x ks Hx Hnd IH]; simpl; [reflexivity|].
  destruct (pykey_eqb k x) eqn:E; simpl.
  - apply pykey_eqb_eq in E. subst x.
    now rewrite filter_pykey_absent.
  - exact IH.
Qed.

Lemma dict_get_of_In (k : pykey) (v : json) (d : odict) :
  NoDup (dict_keys d) -> In (k, v) d -> dict_get k d = Some v.
Proof.
  induction d as [|[k' v'] rest IH]; simpl; intros Hnd Hin; [contradiction|].
  inversion Hnd as [|x l Hx Hl]; subst.
  destruct Hin as [E|Hin].
  - injection E as -> ->. now rewrite pykey_eqb_refl.
  - destruct (pykey_eqb k k') eqn:E.
    + apply pykey_eqb_eq in E. subst k'. exfalso. apply Hx.
      change k with (fst (k, v)). now apply in_map.
    + now apply IH.
Qed.

Lemma In_values_get (v : json) (d : odict) :
  NoDup (dict_keys d) -> In v (dict_values d) ->
  exists k, dict_get k d = Some v.
Proof.
  intros Hnd Hin. unfold dict_values in Hin. apply in_map_iff in Hin.
  destruct Hin as [[k v'] [E Hin]]. simpl in E. subst v'.
  exists k. now apply dict_get_of_In.
Qed.

Lemma dict_get_In_values (k : pykey) (v : json) (d : odict) :
  dict_get k d = Some v -> In v (dict_values d).
Proof.
  induction d as [|[k' v'] rest IH]; simpl; [discriminate|].
  destruct (pykey_eqb k k'); intro H.
  - injection H as ->. now left.
  - right. now apply IH.
Qed.

(* ------------------------------------------------------------------ *)
(** ** The fetch strategies *)

Lemma fetch_global_top_models_run remote limit sort_by st :
  exists lg,
    fetch_global_top_models remote limit sort_by st =
    (Ok (fetched (remote (sent st) (global_request (self st) limit sort_by))),
     {| self := self st;
        sent := sent st ++ [global_request (self st) limit sort_by];
        log := log st ++ lg |}).
Proof.
  unfold fetch_global_top_models, try_except, bind, get_self, requests_get,
    logger, raise_for_status, response_json, lift, ret, global_request,
    fetched.
  simpl.
  destruct (remote _ _) as [| |status b]; simpl.
  - eexists. rewrite <- app_assoc. reflexivity.
  - eexists. rewrite <- app_assoc. reflexivity.
  - destruct ((400 <=? status) && (status <? 600)); simpl.
    + destruct b as [[]|]; eexists; rewrite <- app_assoc; reflexivity.
    + destruct b as [[]|]; simpl; eexists;
        rewrite <- ?app_assoc; reflexivity.
Qed.

Lemma fetched_failure (o : http_outcome) :
  is_failure o = true -> fetched o = [].
Proof.
  destruct o as [| |status b]; simpl; try reflexivity.
  destruct ((400 <=? status) && (status <? 600)).
  - now destruct b as [[]|].
  - destruct b as [[]|]; intro H; try reflexivity; discriminate.
Qed.

Lemma fetch_category_specific_run remote pipeline_tag library limit st :
  exists lg,
    fetch_category_specific remote pipeline_tag library limit st =
    (Ok (match remote (sent st)
                 (category_request (self st) pipeline_tag library limit) with
         | NetResponse status (Some data) =>
             if (400 <=? status) && (status <? 600) then JList [] else data
         | _ => JList []
         end),
     {| self := self st;
        sent := sent st
                ++ [category_request (self st) pipeline_tag library limit];
        log := log st ++ lg |}).
Proof.
  unfold fetch_category_specific, try_except, bind, get_self, requests_get,
    logger, raise_for_status, response_json, lift, ret, category_request.
  simpl.
  destruct (remote _ _) as [| |status b]; simpl.
  - eexists. reflexivity.
  - eexists. reflexivity.
  - destruct ((400 <=? status) && (status <? 600)); simpl.
    + destruct b; eexists; reflexivity.
    + destruct b as [data|]; simpl.
      * exists []. now rewrite app_nil_r.
      * eexists. reflexivity.
Qed.

(* ------------------------------------------------------------------ *)
(** ** The pipeline as a merge of its phase results *)

Ltac step_fetch remote :=
  match goal with
  | |- context [fetch_global_top_models remote ?l ?s ?st] =>
      let lg := fresh "lg" in
      let E := fresh "E" in
      destruct (fetch_global_top_models_run remote l s st) as [lg E];
      rewrite E; clear E; cbn [self sent log]
  end.

Lemma phase_results_run remote st :
  phase_results remote st =
  [fetched (remote (sent st) (global_request (self st) 1000 "downloads"));
   fetched (remote (sent st ++ [global_request (self st) 1000 "downloads"])
              (global_request (self st) 1000 "likes"));
   fetched (remote ((sent st ++ [global_request (self st) 1000 "downloads"])
                      ++ [global_request (self st) 1000 "likes"])
              (global_request (self st) 1000 "likes7d"));
   fetched (remote (((sent st ++ [global_request (self st) 1000 "downloads"])
                      ++ [global_request (self st) 1000 "likes"])
                      ++ [global_request (self st) 1000 "likes7d"])
              (global_request (self st) 100 "createdAt"))].
Proof.
  unfold phase_results, fetch_all.
  repeat step_fetch remote. reflexivity.
Qed.

Lemma run_etl_pipeline_result remote st :
  fst (run_etl_pipeline remote st) =
  match for_models (List.concat (phase_results remote st)) [] with
  | Ok d => Ok (dict_values d)
  | Raise e => Raise e
  end.
Proof.
  rewrite phase_results_run. unfold List.concat. rewrite app_nil_r.
  unfold run_etl_pipeline, bind, logger, lift, ret. cbn [self sent log].
  step_fetch remote. rewrite for_models_app.
  destruct (for_models _ []) as [d1|e]; [|reflexivity].
  step_fetch remote. rewrite for_models_app.
  destruct (for_models _ d1) as [d2|e]; [|reflexivity].
  step_fetch remote. rewrite for_models_app.
  destruct (for_models _ d2) as [d3|e]; [|reflexivity].
  step_fetch remote.
  destruct (for_models _ d3) as [d4|e]; reflexivity.
Qed.

Lemma run_etl_pipeline_self remote st :
  self (snd (run_etl_pipeline remote st)) = self st.
Proof.
  unfold run_etl_pipeline, bind, logger, lift, ret. cbn [self sent log].
  step_fetch remote.
  destruct (for_models _ []) as [d1|e]; [|reflexivity].
  step_fetch remote.
  destruct (for_models _ d1) as [d2|e]; [|reflexivity].
  step_fetch remote.
  destruct (for_models _ d2) as [d3|e]; [|reflexivity].
  step_fetch remote.
  destruct (for_models _ d3) as [d4|e]; reflexivity.
Qed.

Lemma run_etl_pipeline_sent remote st out st' :
  run_etl_pipeline remote st = (Ok out, st') ->
  sent st' = sent st ++ etl_requests (self st).
Proof.
  unfold run_etl_pipeline, bind, logger, lift, ret. cbn [self sent log].
  step_fetch remote.
  destruct (for_models _ []) as [d1|e]; [|discriminate].
  step_fetch remote.
  destruct (for_models _ d1) as [d2|e]; [|discriminate].
  step_fetch remote.
  destruct (for_models _ d2) as [d3|e]; [|discriminate].
  step_fetch remote.
  destruct (for_models _ d3) as [d4|e]; [|discriminate].
  intro H. injection H as _ <-. cbn [sent]. unfold etl_requests.
  rewrite <- !app_assoc. reflexivity.
Qed.

(** A normal return comes from a completed merge of all four results. *)
Lemma run_etl_pipeline_merge remote st p1 p2 p3 p4 out st' :
  phase_results remote st = [p1; p2; p3; p4] ->
  run_etl_pipeline remote st = (Ok out, st') ->
  exists d,
    for_models (p1 ++ p2 ++ p3 ++ p4) [] = Ok d /\ out = dict_values d.
Proof.
  intros Hp Hr. pose proof (run_etl_pipeline_result remote st) as H.
  rewrite Hp, Hr in H. simpl in H. rewrite app_nil_r in H.
  destruct (for_models (p1 ++ p2 ++ p3 ++ p4) []) as [d|e]; [|discriminate].
  exists d. split; [reflexivity | congruence].
Qed.

(** Any four lists are the phase results of some remote end. *)
Lemma phase_results_scripted st p1 p2 p3 p4 :
  phase_results (scripted (List.length (sent st)) (serving [p1; p2; p3; p4]))
    st = [p1; p2; p3; p4].
Proof.
  rewrite phase_results_run. unfold scripted, serving.
  rewrite !length_app. simpl List.length.
  replace (List.length (sent st) - List.length (sent st))%nat with 0%nat by lia.
  replace (List.length (sent st) + 1 - List.length (sent st))%nat
    with 1%nat by lia.
  replace (List.length (sent st) + 1 + 1 - List.length (sent st))%nat
    with 2%nat by lia.
  replace (List.length (sent st) + 1 + 1 + 1 - List.length (sent st))%nat
    with 3%nat by lia.
  reflexivity.
Qed.

(** Facts about the merged dictionary, gathered once. *)
Lemma merged_dict (all : list json) (d : odict) :
  for_models all [] = Ok d ->
  keyed_ok d /\
  NoDup (dict_keys d) /\
  dict_keys d = first_occurrences (keys_of all) /\
  (forall k, dict_get k d = last_with_key k all) /\
  Forall well_keyed all.
Proof.
  intro H. repeat split.
  - eapply for_models_keyed_ok; [eassumption | constructor].
  - eapply for_models_NoDup; [eassumption | constructor].
  - rewrite (for_models_keys _ _ _ H). apply fold_add_key_nil.
  - intro k. rewrite (for_models_get _ _ _ H k). simpl.
    now destruct (last_with_key k all).
  - eapply for_models_well_keyed; eassumption.
Qed.

Lemma merged_count (all : list json) (d : odict) (k : pykey) :
  for_models all [] = Ok d ->
  In k (keys_of all) ->
  count_key k (dict_values d) = 1%nat.
Proof.
  intros H Hin. destruct (merged_dict _ _ H) as (Hok & Hnd & Hkeys & _ & _).
  rewrite (count_key_values _ _ Hok), (count_NoDup _ _ Hnd).
  assert (E : existsb (pykey_eqb k) (dict_keys d) = true).
  { apply existsb_pykey. rewrite Hkeys. now apply In_first_occurrences. }
  now rewrite E.
Qed.

Lemma In_concat_skipn {A} (x : A) (j : nat) (ps : list (list A)) :
  In x (List.concat (skipn j ps)) ->
  exists m, (j <= m)%nat /\ In x (nth m ps []).
Proof.
  revert ps. induction j as [|j IH]; intros ps H.
  - simpl in H. apply in_concat in H. destruct H as [l [Hl Hx]].
    destruct (In_nth _ _ [] Hl) as [m [_ Hm]].
    exists m. split; [lia | now rewrite Hm].
  - destruct ps as [|p ps]; simpl in H; [contradiction|].
    destruct (IH _ H) as [m [Hle Hm]]. exists (S m). split; [lia | exact Hm].
Qed.

Lemma In_nth_concat_skipn {A} (x : A) (j : nat) (ps : list (list A)) :
  In x (nth j ps []) -> In x (List.concat (skipn j ps)).
Proof.
  revert ps. induction j as [|j IH]; intros [|p ps] H; simpl in *;
    try contradiction.
  - apply in_or_app. now left.
  - now apply IH.
Qed.

Lemma last_with_key_only (k : pykey) (rs : list json) (r0 : json) :
  In r0 rs -> model_key r0 = Ok k ->
  (forall r, In r rs -> model_key r = Ok k -> r = r0) ->
  last_with_key k rs = Some r0.
Proof.
  intros Hin Hk Huniq.
  destruct (last_with_key k rs) as [r|] eqn:E.
  - apply last_with_key_Some in E. destruct E as [Hr Hkr].
    f_equal. now apply Huniq.
  - apply last_with_key_None in E. exfalso. apply E.
    apply In_keys_of. now exists r0.
Qed.

(** The record of the latest phase that has the key is the last one in
    processing order. *)
Lemma last_with_key_latest (k : pykey) (ps : list (list json)) (j : nat)
    (rj : json) :
  In rj (nth j ps []) -> model_key rj = Ok k ->
  (forall m r, (j <= m)%nat -> In r (nth m ps []) -> model_key r = Ok k ->
               r = rj) ->
  last_with_key k (List.concat ps) = Some rj.
Proof.
  intros Hin Hk Huniq.
  rewrite <- (firstn_skipn j ps), concat_app, last_with_key_app.
  rewrite (last_with_key_only k _ rj); [reflexivity | | assumption |].
  - now apply In_nth_concat_skipn.
  - intros r Hr Hkr. apply In_concat_skipn in Hr.
    destruct Hr as [m [Hle Hm]]. eapply Huniq; eassumption.
Qed.

(* ================================================================== *)
(** ** The merged collection *)

(** C1. Whatever the four phases return, the collection
    [run_etl_pipeline] returns holds exactly one record for each
    distinct identifier occurring in the phase results, and every
    record it holds is one of the fetched records, so no identifier
    appears that no phase delivered.  The pipeline does return a
    collection whenever every fetched element is a mapping whose
    identifier can serve as a dictionary key. *)
Theorem run_etl_pipeline_exact_identifiers :
  forall remote st p1 p2 p3 p4,
    phase_results remote st = [p1; p2; p3; p4] ->
    (Forall well_keyed (p1 ++ p2 ++ p3 ++ p4) ->
     exists out st', run_etl_pipeline remote st = (Ok out, st')) /\
    (forall out st',
       run_etl_pipeline remote st = (Ok out, st') ->
       (forall r, In r (p1 ++ p2 ++ p3 ++ p4) ->
                  exists k, model_key r = Ok k /\ count_key k out = 1%nat) /\
       (forall r', In r' out ->
                   In r' (p1 ++ p2 ++ p3 ++ p4) /\
                   exists k, model_key r' = Ok k /\
                             In k (keys_of (p1 ++ p2 ++ p3 ++ p4))) /\
       List.length out =
       List.length (first_occurrences (keys_of (p1 ++ p2 ++ p3 ++ p4)))).
Proof.
  intros remote st p1 p2 p3 p4 Hp. split.
  - intro Hwk. destruct (for_models_total _ [] Hwk) as [d Hd].
    pose proof (run_etl_pipeline_result remote st) as H.
    rewrite Hp in H. simpl in H. rewrite app_nil_r, Hd in H.
    destruct (run_etl_pipeline remote st) as [res st'] eqn:E. simpl in H.
    subst res. now exists (dict_values d), st'.
  - intros out st' Hr.
    destruct (run_etl_pipeline_merge _ _ _ _ _ _ _ _ Hp Hr) as [d [Hd ->]].
    destruct (merged_dict _ _ Hd) as (Hok & Hnd & Hkeys & Hget & Hwk).
    split; [|split].
    + intros r Hin. rewrite Forall_forall in Hwk.
      destruct (Hwk r Hin) as [k Hk]. exists k. split; [assumption|].
      apply (merged_count _ _ _ Hd). apply In_keys_of. now exists r.
    + intros r' Hin. destruct (In_values_get _ _ Hnd Hin) as [k Hk].
      rewrite Hget in Hk. apply last_with_key_Some in Hk.
      destruct Hk as [Hin' Hk]. split; [assumption|].
      exists k. split; [assumption|]. apply In_keys_of. now exists r'.
    + unfold dict_values. rewrite length_map, <- Hkeys.
      unfold dict_keys. now rewrite length_map.
Qed.

Lemma run_etl_pipeline_exact_identifiers_witness :
  phase_results remote_scenario fresh_state = scenario_phases /\
  run_etl_pipeline remote_scenario fresh_state =
    (Ok [rec_a_second; rec_b],
     snd (run_etl_pipeline remote_scenario fresh_state)) /\
  In rec_a_first ([rec_a_first] ++ [rec_a_second] ++ [] ++ [rec_b]) /\
  exists k, model_key rec_a_first = Ok k /\
            count_key k [rec_a_second; rec_b] = 1%nat.
Proof.
  assert (Hp : phase_results remote_scenario fresh_state =
               [[rec_a_first]; [rec_a_second]; []; [rec_b]])
    by (vm_compute; reflexivity).
  assert (Hr : run_etl_pipeline remote_scenario fresh_state =
               (Ok [rec_a_second; rec_b],
                snd (run_etl_pipeline remote_scenario fresh_state)))
    by (vm_compute; reflexivity).
  split; [exact Hp|]. split; [exact Hr|].
  split; [simpl; auto|].
  apply (proj1 (proj2 (run_etl_pipeline_exact_identifiers
                         remote_scenario fresh_state
                         [rec_a_first] [rec_a_second] [] [rec_b]
                         Hp)
                  [rec_a_second; rec_b]
                  (snd (run_etl_pipeline remote_scenario fresh_state))
                  Hr)).
  simpl; auto.
Defined.

(** C2. Last write wins.  The record the final collection holds for an
    identifier is the last record with that identifier in processing
    order; so of two records that share an identifier and come from
    different phases, the one of the later phase is the one kept, field
    for field, once no phase from there on delivers another record with
    that identifier.  In the scenario of the four phase results
    [{id:a, downloads:10}], [{id:a, downloads:0, likes:99}], [],
    [{id:b}] the pipeline returns {id:a, downloads:0, likes:99}
    followed by {id:b}. *)
Theorem run_etl_pipeline_last_write_wins :
  forall remote st p1 p2 p3 p4 out st',
    phase_results remote st = [p1; p2; p3; p4] ->
    run_etl_pipeline remote st = (Ok out, st') ->
    (forall k, find_key k out = last_with_key k (p1 ++ p2 ++ p3 ++ p4)) /\
    (forall i j ri rj k,
       (i < j)%nat ->
       In ri (nth i [p1; p2; p3; p4] []) ->
       In rj (nth j [p1; p2; p3; p4] []) ->
       model_key ri = Ok k ->
       model_key rj = Ok k ->
       (forall m r, (j <= m)%nat -> In r (nth m [p1; p2; p3; p4] []) ->
                    model_key r = Ok k -> r = rj) ->
       find_key k out = Some rj /\ count_key k out = 1%nat) /\
    ([p1; p2; p3; p4] = scenario_phases -> out = [rec_a_second; rec_b]).
Proof.
  intros remote st p1 p2 p3 p4 out st' Hp Hr.
  destruct (run_etl_pipeline_merge _ _ _ _ _ _ _ _ Hp Hr) as [d [Hd ->]].
  destruct (merged_dict _ _ Hd) as (Hok & Hnd & Hkeys & Hget & Hwk).
  assert (Hfind : forall k, find_key k (dict_values d) =
                            last_with_key k (p1 ++ p2 ++ p3 ++ p4)).
  { intro k. now rewrite (find_key_values _ _ Hok). }
  split; [exact Hfind|]. split.
  - intros i j ri rj k Hij Hi Hj Hki Hkj Hlast. split.
    + rewrite Hfind.
      pose proof (last_with_key_latest k [p1; p2; p3; p4] j rj Hj Hkj Hlast)
        as H.
      simpl in H. now rewrite app_nil_r in H.
    + apply (merged_count _ _ _ Hd). apply In_keys_of. exists rj.
      split; [|assumption].
      apply In_nth_concat_skipn in Hj.
      assert (Hc : In rj (List.concat [p1; p2; p3; p4])).
      { rewrite <- (firstn_skipn j [p1; p2; p3; p4]), concat_app.
        apply in_or_app. now right. }
      simpl in Hc. now rewrite app_nil_r in Hc.
  - intro E. injection E as -> -> -> ->.
    simpl in Hd. injection Hd as <-. reflexivity.
Qed.

Lemma run_etl_pipeline_last_write_wins_witness :
  phase_results remote_scenario fresh_state = scenario_phases /\
  run_etl_pipeline remote_scenario fresh_state =
    (Ok [rec_a_second; rec_b],
     snd (run_etl_pipeline remote_scenario fresh_state)) /\
  find_key (KStr "a") [rec_a_second; rec_b] = Some rec_a_second /\
  count_key (KStr "a") [rec_a_second; rec_b] = 1%nat.
Proof.
  assert (Hp : phase_results remote_scenario fresh_state =
               [[rec_a_first]; [rec_a_second]; []; [rec_b]])
    by (vm_compute; reflexivity).
  assert (Hr : run_etl_pipeline remote_scenario fresh_state =
               (Ok [rec_a_second; rec_b],
                snd (run_etl_pipeline remote_scenario fresh_state)))
    by (vm_compute; reflexivity).
  split; [exact Hp|]. split; [exact Hr|].
  apply (proj1 (proj2 (run_etl_pipeline_last_write_wins
                         remote_scenario fresh_state
                         [rec_a_first] [rec_a_second] [] [rec_b]
                         [rec_a_second; rec_b]
                         (snd (run_etl_pipeline remote_scenario fresh_state))
                         Hp Hr))
               0%nat 1%nat rec_a_first rec_a_second (KStr "a")).
  - lia.
  - simpl; auto.
  - simpl; auto.
  - reflexivity.
  - reflexivity.
  - intros m r Hm Hin Hk.
    destruct m as [|[|[|[|m]]]]; simpl in Hin.
    + lia.
    + destruct Hin as [<-|[]]. reflexivity.
    + contradiction.
    + destruct Hin as [<-|[]]. discriminate.
    + destruct m; contradiction.
Defined.

(** C9. The returned collection follows the order in which the
    identifiers are first seen across the phases: its identifiers are
    the identifiers of the phase results, each once, at the place of
    its first occurrence; and what stands at an identifier's place is
    the record written last for it, so a later overwrite takes the
    original position and no new one. *)
Theorem run_etl_pipeline_first_occurrence_order :
  forall remote st p1 p2 p3 p4 out st',
    phase_results remote st = [p1; p2; p3; p4] ->
    run_etl_pipeline remote st = (Ok out, st') ->
    map model_key out =
      map Ok (first_occurrences (keys_of (p1 ++ p2 ++ p3 ++ p4))) /\
    (forall n k,
       nth_error (first_occurrences (keys_of (p1 ++ p2 ++ p3 ++ p4))) n
         = Some k ->
       nth_error out n = last_with_key k (p1 ++ p2 ++ p3 ++ p4)) /\
    (forall k v d,
       In k (dict_keys d) -> dict_keys (dict_set k v d) = dict_keys d).
Proof.
  intros remote st p1 p2 p3 p4 out st' Hp Hr.
  destruct (run_etl_pipeline_merge _ _ _ _ _ _ _ _ Hp Hr) as [d [Hd ->]].
  destruct (merged_dict _ _ Hd) as (Hok & Hnd & Hkeys & Hget & Hwk).
  split; [|split].
  - rewrite (map_model_key_values _ Hok). now rewrite Hkeys.
  - intros n k Hn. rewrite <- Hkeys in Hn. unfold dict_keys in Hn.
    rewrite nth_error_map in Hn.
    destruct (nth_error d n) as [[k' v]|] eqn:En; simpl in Hn; [|discriminate].
    injection Hn as ->. unfold dict_values. rewrite nth_error_map, En. simpl.
    rewrite <- Hget. symmetry. apply dict_get_of_In; [assumption|].
    eapply nth_error_In; eassumption.
  - intros k v d0 Hin. rewrite dict_keys_set. unfold add_key.
    apply existsb_pykey in Hin. now rewrite Hin.
Qed.

Lemma run_etl_pipeline_first_occurrence_order_witness :
  phase_results remote_scenario fresh_state = scenario_phases /\
  run_etl_pipeline remote_scenario fresh_state =
    (Ok [rec_a_second; rec_b],
     snd (run_etl_pipeline remote_scenario fresh_state)) /\
  map model_key [rec_a_second; rec_b] = [Ok (KStr "a"); Ok (KStr "b")].
Proof.
  assert (Hp : phase_results remote_scenario fresh_state =
               [[rec_a_first]; [rec_a_second]; []; [rec_b]])
    by (vm_compute; reflexivity).
  assert (Hr : run_etl_pipeline remote_scenario fresh_state =
               (Ok [rec_a_second; rec_b],
                snd (run_etl_pipeline remote_scenario fresh_state)))
    by (vm_compute; reflexivity).
  split; [exact Hp|]. split; [exact Hr|].
  exact (proj1 (run_etl_pipeline_first_occurrence_order
                  remote_scenario fresh_state
                  [rec_a_first] [rec_a_second] [] [rec_b]
                  [rec_a_second; rec_b]
                  (snd (run_etl_pipeline remote_scenario fresh_state))
                  Hp Hr)).
Defined.

Lemma has_key_KNone (model : json) :
  has_key KNone model = missing_or_null_id model.
Proof.
  unfold has_key, model_key, get_id, missing_or_null_id.
  destruct model as [| | | | |d]; try reflexivity.
  destruct (assoc "id" d) as [[]|]; reflexivity.
Qed.

Lemma missing_or_null_id_key (model : json) :
  missing_or_null_id model = true <-> model_key model = Ok KNone.
Proof.
  rewrite <- has_key_KNone. unfold has_key.
  destruct (model_key model) as [k|e].
  - rewrite pykey_eqb_eq. split; congruence.
  - split; discriminate.
Qed.

(** C6. A record whose identifier is missing or null is stored under
    the one key [None]; a second such record takes the place and the
    value of the first; so the final collection holds at most one of
    them, the last one fetched. *)
Theorem missing_identifier_records_collide :
  forall remote st p1 p2 p3 p4 out st',
    phase_results remote st = [p1; p2; p3; p4] ->
    run_etl_pipeline remote st = (Ok out, st') ->
    (forall model d,
       missing_or_null_id model = true ->
       store_model model d = Ok (dict_set KNone model d)) /\
    (forall m1 m2 d,
       missing_or_null_id m1 = true ->
       missing_or_null_id m2 = true ->
       dict_get KNone (dict_set KNone m2 (dict_set KNone m1 d)) = Some m2 /\
       dict_keys (dict_set KNone m2 (dict_set KNone m1 d)) =
       dict_keys (dict_set KNone m1 d)) /\
    (List.length (filter missing_or_null_id out) <= 1)%nat /\
    (forall r, In r out -> missing_or_null_id r = true ->
               last_with_key KNone (p1 ++ p2 ++ p3 ++ p4) = Some r).
Proof.
  intros remote st p1 p2 p3 p4 out st' Hp Hr.
  destruct (run_etl_pipeline_merge _ _ _ _ _ _ _ _ Hp Hr) as [d [Hd ->]].
  destruct (merged_dict _ _ Hd) as (Hok & Hnd & Hkeys & Hget & Hwk).
  split; [|split; [|split]].
  - intros model d0 Hm. apply missing_or_null_id_key in Hm.
    now rewrite store_model_key, Hm.
  - intros m1 m2 d0 _ _. split.
    + now rewrite dict_get_set.
    + rewrite (dict_keys_set KNone m2). unfold add_key.
      assert (E : existsb (pykey_eqb KNone)
                    (dict_keys (dict_set KNone m1 d0)) = true).
      { apply existsb_pykey. rewrite dict_keys_set. apply In_add_key.
        now left. }
      now rewrite E.
  - rewrite (filter_ext _ _ (fun r => eq_sym (has_key_KNone r))).
    fold (count_key KNone (dict_values d)).
    rewrite (count_key_values _ _ Hok), (count_NoDup _ _ Hnd).
    destruct (existsb (pykey_eqb KNone) (dict_keys d)); lia.
  - intros r Hin Hm. apply missing_or_null_id_key in Hm.
    destruct (In_values_get _ _ Hnd Hin) as [k Hk].
    rewrite Hget in Hk. pose proof (last_with_key_Some _ _ _ Hk) as [_ Hk'].
    assert (k = KNone) by congruence. now subst k.
Qed.

Lemma missing_identifier_records_collide_witness :
  phase_results remote_malformed fresh_state = malformed_phases /\
  run_etl_pipeline remote_malformed fresh_state =
    (Ok [rec_null_id; rec_a_first],
     snd (run_etl_pipeline remote_malformed fresh_state)) /\
  (List.length (filter missing_or_null_id [rec_null_id; rec_a_first]) <= 1)%nat.
Proof.
  assert (Hp : phase_results remote_malformed fresh_state =
               [[rec_no_id]; [rec_a_first]; [rec_null_id]; []])
    by (vm_compute; reflexivity).
  assert (Hr : run_etl_pipeline remote_malformed fresh_state =
               (Ok [rec_null_id; rec_a_first],
                snd (run_etl_pipeline remote_malformed fresh_state)))
    by (vm_compute; reflexivity).
  split; [exact Hp|]. split; [exact Hr|].
  exact (proj1 (proj2 (proj2 (missing_identifier_records_collide
                  remote_malformed fresh_state
                  [rec_no_id] [rec_a_first] [rec_null_id] []
                  [rec_null_id; rec_a_first]
                  (snd (run_etl_pipeline remote_malformed fresh_state))
                  Hp Hr)))).
Defined.

(* ================================================================== *)
(** ** Failure handling *)

(** C4. When each of the four fetches of a run fails, the run returns
    the empty collection; nothing is raised. *)
Theorem run_etl_pipeline_all_fetches_fail :
  forall remote st,
    (forall n r,
       nth_error (etl_requests (self st)) n = Some r ->
       is_failure
         (remote (sent st ++ firstn n (etl_requests (self st))) r) = true) ->
    phase_results remote st = [[]; []; []; []] /\
    exists st', run_etl_pipeline remote st = (Ok [], st').
Proof.
  intros remote st H.
  assert (Hp : phase_results remote st = [[]; []; []; []]).
  { rewrite phase_results_run.
    pose proof (H 0%nat _ eq_refl) as H0.
    pose proof (H 1%nat _ eq_refl) as H1.
    pose proof (H 2%nat _ eq_refl) as H2.
    pose proof (H 3%nat _ eq_refl) as H3.
    simpl in H0, H1, H2, H3. rewrite app_nil_r in H0.
    rewrite <- !app_assoc. simpl.
    now rewrite (fetched_failure _ H0), (fetched_failure _ H1),
      (fetched_failure _ H2), (fetched_failure _ H3). }
  split; [exact Hp|].
  pose proof (run_etl_pipeline_result remote st) as Hr.
  rewrite Hp in Hr. simpl in Hr.
  destruct (run_etl_pipeline remote st) as [res st'] eqn:E. simpl in Hr.
  subst res. now exists st'.
Qed.

Lemma run_etl_pipeline_all_fetches_fail_witness :
  exists st', run_etl_pipeline remote_down fresh_state = (Ok [], st').
Proof.
  apply (run_etl_pipeline_all_fetches_fail remote_down fresh_state).
  intros n r _. reflexivity.
Defined.

(** C5. A global fetch whose request is answered with a 2xx status and
    a body that decodes to something other than a list returns the
    empty list. *)
Theorem fetch_global_top_models_non_sequence :
  forall remote limit sort_by st status data,
    remote (sent st) (global_request (self st) limit sort_by) =
      NetResponse status (Some data) ->
    200 <= status < 300 ->
    (forall l, data <> JList l) ->
    exists st', fetch_global_top_models remote limit sort_by st = (Ok [], st').
Proof.
  intros remote limit sort_by st status data Ho Hs Hd.
  destruct (fetch_global_top_models_run remote limit sort_by st) as [lg E].
  rewrite E, Ho. eexists. f_equal. f_equal. simpl.
  destruct data as [| | | |l|]; try reflexivity.
  exfalso. now apply (Hd l).
Qed.

Lemma fetch_global_top_models_non_sequence_witness :
  exists st',
    fetch_global_top_models remote_error_object 1000 "downloads" fresh_state
    = (Ok [], st').
Proof.
  apply (fetch_global_top_models_non_sequence remote_error_object
           1000 "downloads" fresh_state 200 error_object).
  - reflexivity.
  - lia.
  - intros l. discriminate.
Defined.

(** C3 (where the code departs from it). A targeted fetch answered with
    status 200 and an error object hands that object back as its
    result: the body is returned as decoded, whatever its shape. *)
Theorem fetch_category_specific_returns_error_object :
  forall pipeline_tag library limit st,
    fst (fetch_category_specific remote_error_object
           pipeline_tag library limit st) = Ok error_object /\
    fst (fetch_global_top_models remote_error_object limit "downloads" st)
      = Ok [].
Proof.
  intros pipeline_tag library limit st. split.
  - destruct (fetch_category_specific_run remote_error_object
                pipeline_tag library limit st) as [lg E].
    now rewrite E.
  - destruct (fetch_global_top_models_run remote_error_object
                limit "downloads" st) as [lg E].
    now rewrite E.
Qed.

(** The rest of the targeted fetch: exceptions are absorbed into the
    empty list, and the request always carries the 25 second timeout. *)
Lemma fetch_category_specific_absorbs remote pipeline_tag library limit st :
  match remote (sent st)
          (category_request (self st) pipeline_tag library limit) with
  | NetResponse status (Some _) =>
      (400 <=? status) && (status <? 600) = true
  | _ => True
  end ->
  fst (fetch_category_specific remote pipeline_tag library limit st)
    = Ok (JList []).
Proof.
  intro H.
  destruct (fetch_category_specific_run remote pipeline_tag library limit st)
    as [lg E].
  rewrite E. simpl.
  destruct (remote _ _) as [| |status [data|]]; try reflexivity.
  now rewrite H.
Qed.

Lemma fetch_category_specific_timeout remote pipeline_tag library limit st :
  exists r,
    sent (snd (fetch_category_specific remote pipeline_tag library limit st))
      = sent st ++ [r] /\
    req_timeout r = 25.
Proof.
  destruct (fetch_category_specific_run remote pipeline_tag library limit st)
    as [lg E].
  rewrite E. simpl. eexists. split; reflexivity.
Qed.

(* ================================================================== *)
(** ** The phases and their requests *)

(** C7 fails as it stands: when the first response is a list holding a
    bare number, the first phase loop raises and only one request has
    been sent. *)
Lemma run_etl_pipeline_stops_in_first_phase :
  fst (run_etl_pipeline remote_bare_number fresh_state)
    = Raise AttributeError /\
  sent (snd (run_etl_pipeline remote_bare_number fresh_state))
    = [global_request (self fresh_state) 1000 "downloads"] /\
  sent (snd (run_etl_pipeline remote_bare_number fresh_state))
    <> sent fresh_state ++ etl_requests (self fresh_state).
Proof.
  split; [vm_compute; reflexivity|]. split; [vm_compute; reflexivity|].
  vm_compute. discriminate.
Qed.

(** C7, amended. A run that returns has sent exactly four requests, in
    this order: limit 1000 sorted by downloads, limit 1000 sorted by
    likes, limit 1000 sorted by likes7d, limit 100 sorted by createdAt;
    and every global fetch sends one request whose parameters are
    limit, sort, direction -1 and full true. *)
Theorem run_etl_pipeline_phase_order :
  forall remote st out st',
    run_etl_pipeline remote st = (Ok out, st') ->
    sent st' =
      sent st ++
      [ {| req_url := BASE_URL;
           req_params := [("limit", PInt 1000); ("sort", PStr "downloads");
                          ("direction", PInt (-1)); ("full", PBool true)];
           req_headers := headers (self st);
           req_timeout := timeout (self st) |};
        {| req_url := BASE_URL;
           req_params := [("limit", PInt 1000); ("sort", PStr "likes");
                          ("direction", PInt (-1)); ("full", PBool true)];
           req_headers := headers (self st);
           req_timeout := timeout (self st) |};
        {| req_url := BASE_URL;
           req_params := [("limit", PInt 1000); ("sort", PStr "likes7d");
                          ("direction", PInt (-1)); ("full", PBool true)];
           req_headers := headers (self st);
           req_timeout := timeout (self st) |};
        {| req_url := BASE_URL;
           req_params := [("limit", PInt 100); ("sort", PStr "createdAt");
                          ("direction", PInt (-1)); ("full", PBool true)];
           req_headers := headers (self st);
           req_timeout := timeout (self st) |} ] /\
    (forall limit sort_by st0,
       sent (snd (fetch_global_top_models remote limit sort_by st0)) =
       sent st0 ++
       [ {| req_url := BASE_URL;
            req_params := [("limit", PInt limit); ("sort", PStr sort_by);
                           ("direction", PInt (-1)); ("full", PBool true)];
            req_headers := headers (self st0);
            req_timeout := timeout (self st0) |} ]).
Proof.
  intros remote st out st' Hr. split.
  - exact (run_etl_pipeline_sent _ _ _ _ Hr).
  - intros limit sort_by st0.
    destruct (fetch_global_top_models_run remote limit sort_by st0) as [lg E].
    now rewrite E.
Qed.

Lemma run_etl_pipeline_phase_order_witness :
  run_etl_pipeline remote_scenario fresh_state =
    (Ok [rec_a_second; rec_b],
     snd (run_etl_pipeline remote_scenario fresh_state)) /\
  map req_params
    (sent (snd (run_etl_pipeline remote_scenario fresh_state))) =
  [ [("limit", PInt 1000); ("sort", PStr "downloads");
     ("direction", PInt (-1)); ("full", PBool true)];
    [("limit", PInt 1000); ("sort", PStr "likes");
     ("direction", PInt (-1)); ("full", PBool true)];
    [("limit", PInt 1000); ("sort", PStr "likes7d");
     ("direction", PInt (-1)); ("full", PBool true)];
    [("limit", PInt 100); ("sort", PStr "createdAt");
     ("direction", PInt (-1)); ("full", PBool true)] ].
Proof.
  assert (Hr : run_etl_pipeline remote_scenario fresh_state =
               (Ok [rec_a_second; rec_b],
                snd (run_etl_pipeline remote_scenario fresh_state)))
    by (vm_compute; reflexivity).
  split; [exact Hr|].
  rewrite (proj1 (run_etl_pipeline_phase_order
                    remote_scenario fresh_state
                    [rec_a_second; rec_b]
                    (snd (run_etl_pipeline remote_scenario fresh_state))
                    Hr)).
  reflexivity.
Defined.

(* ================================================================== *)
(** ** The HFModel schema *)

(** C8 fails as it stands: a negative download count passes validation
    and is kept. *)
Lemma validate_HFModel_accepts_negative_downloads :
  exists m,
    validate_HFModel strict_validators 0
      [("model_id", VStr "org/name"); ("downloads", VInt (-5))] = Valid m /\
    ~ (downloads m >= 0).
Proof.
  eexists. split; [reflexivity|]. simpl. lia.
Qed.

(** The same under any type validators that let a string and an integer
    pass as they are, those of the default mode included. *)
Lemma validate_HFModel_negative_downloads_any_mode V :
  (forall s, validate_str V (VStr s) = Some s) ->
  (forall z, validate_int V (VInt z) = Some z) ->
  exists m,
    validate_HFModel V 0
      [("model_id", VStr "org/name"); ("downloads", VInt (-5))] = Valid m /\
    downloads m = -5.
Proof.
  intros Hs Hi. eexists.
  unfold validate_HFModel, required, with_default, as_str, as_int. simpl.
  rewrite Hs, Hi. simpl. split; reflexivity.
Qed.

Lemma with_default_absent {A} check name (default : A) input :
  kwarg name input = None ->
  with_default check name default input = Valid default.
Proof. intro H. unfold with_default. now rewrite H. Qed.

Lemma with_default_int V name default input z :
  (forall z, validate_int V (VInt z) = Some z) ->
  kwarg name input = Some (VInt z) ->
  with_default (as_int V) name default input = Valid z.
Proof. intros Hi H. unfold with_default, as_int. now rewrite H, Hi. Qed.

Lemma with_default_agree {A} (check : string -> pyval -> validated A)
    name (default : A) input input' :
  kwarg name input' = kwarg name input ->
  with_default check name default input' =
  with_default check name default input.
Proof. intro H. unfold with_default. now rewrite H. Qed.

Lemma required_agree {A} (check : string -> pyval -> validated A)
    name input input' :
  kwarg name input' = kwarg name input ->
  required check name input' = required check name input.
Proof. intro H. unfold required. now rewrite H. Qed.

(** An input is accepted exactly when each of its ten fields is, and
    the record holds what the fields validate to. *)
Lemma validate_HFModel_fields V now input m :
  validate_HFModel V now input = Valid m <->
  required (as_str V) "model_id" input = Valid (model_id m) /\
  with_default (as_optional (as_str V)) "pipeline_tag" None input
    = Valid (pipeline_tag m) /\
  with_default (as_optional (as_str V)) "library_name" None input
    = Valid (library_name m) /\
  with_default (as_optional (as_str V)) "author" None input
    = Valid (author m) /\
  with_default (as_int V) "downloads" 0 input = Valid (downloads m) /\
  with_default (as_int V) "likes" 0 input = Valid (likes m) /\
  with_default (as_bool V) "private" false input = Valid (private m) /\
  with_default (as_bool V) "is_active" true input = Valid (is_active m) /\
  with_default (as_optional (as_datetime V)) "last_modified" None input
    = Valid (last_modified m) /\
  with_default (as_datetime V) "created_at" now input
    = Valid (created_at m).
Proof.
  unfold validate_HFModel. split.
  - unfold vbind.
    destruct (required (as_str V) "model_id" input); [|discriminate].
    destruct (with_default (as_optional (as_str V)) "pipeline_tag" None input);
      [|discriminate].
    destruct (with_default (as_optional (as_str V)) "library_name" None input);
      [|discriminate].
    destruct (with_default (as_optional (as_str V)) "author" None input);
      [|discriminate].
    destruct (with_default (as_int V) "downloads" 0 input); [|discriminate].
    destruct (with_default (as_int V) "likes" 0 input); [|discriminate].
    destruct (with_default (as_bool V) "private" false input); [|discriminate].
    destruct (with_default (as_bool V) "is_active" true input);
      [|discriminate].
    destruct (with_default (as_optional (as_datetime V)) "last_modified"
                None input); [|discriminate].
    destruct (with_default (as_datetime V) "created_at" now input);
      [|discriminate].
    intro H. injection H as <-. simpl. repeat split.
  - intros (H1 & H2 & H3 & H4 & H5 & H6 & H7 & H8 & H9 & H10).
    rewrite H1, H2, H3, H4, H5, H6, H7, H8, H9, H10. simpl.
    now destruct m.
Qed.

(** C8, amended. Validation puts no lower bound on downloads and likes:
    where an input is accepted, the input that differs from it only by
    giving an integer for downloads (or for likes) is accepted too,
    whatever the sign of that integer, and the record keeps it as it
    is.  An accepted HFModel takes 0 for downloads and for likes when
    they are omitted, true for is_active and the creation time for
    created_at.  This holds under every type validation that lets an
    integer pass as an integer. *)
Theorem validate_HFModel_defaults :
  forall V now input m,
    (forall z, validate_int V (VInt z) = Some z) ->
    validate_HFModel V now input = Valid m ->
    (kwarg "downloads" input = None -> downloads m = 0) /\
    (kwarg "likes" input = None -> likes m = 0) /\
    (kwarg "is_active" input = None -> is_active m = true) /\
    (kwarg "created_at" input = None -> created_at m = now) /\
    (forall z, kwarg "downloads" input = Some (VInt z) -> downloads m = z) /\
    (forall z, kwarg "likes" input = Some (VInt z) -> likes m = z) /\
    (forall input' z,
       (forall n, n <> "downloads" -> kwarg n input' = kwarg n input) ->
       kwarg "downloads" input' = Some (VInt z) ->
       validate_HFModel V now input' = Valid (with_downloads z m)) /\
    (forall input' z,
       (forall n, n <> "likes" -> kwarg n input' = kwarg n input) ->
       kwarg "likes" input' = Some (VInt z) ->
       validate_HFModel V now input' = Valid (with_likes z m)).
Proof.
  intros V now input m Hi Hv.
  pose proof (proj1 (validate_HFModel_fields V now input m) Hv)
    as (H1 & H2 & H3 & H4 & Hd & Hl & H7 & Ha & H9 & Hc).
  repeat split.
  - intro H. rewrite (with_default_absent _ _ _ _ H) in Hd. congruence.
  - intro H. rewrite (with_default_absent _ _ _ _ H) in Hl. congruence.
  - intro H. rewrite (with_default_absent _ _ _ _ H) in Ha. congruence.
  - intro H. rewrite (with_default_absent _ _ _ _ H) in Hc. congruence.
  - intros z H. rewrite (with_default_int V _ _ _ _ Hi H) in Hd. congruence.
  - intros z H. rewrite (with_default_int V _ _ _ _ Hi H) in Hl. congruence.
  - intros input' z Hsame Hz.
    apply validate_HFModel_fields. simpl.
    rewrite (with_default_int V _ _ _ _ Hi Hz).
    rewrite (required_agree _ "model_id" input input'),
      !(with_default_agree _ _ _ input input');
      try (apply Hsame; discriminate).
    repeat split; assumption.
  - intros input' z Hsame Hz.
    apply validate_HFModel_fields. simpl.
    rewrite (with_default_int V _ _ _ _ Hi Hz).
    rewrite (required_agree _ "model_id" input input'),
      !(with_default_agree _ _ _ input input');
      try (apply Hsame; discriminate).
    repeat split; assumption.
Qed.

Lemma validate_HFModel_defaults_witness :
  exists m,
    validate_HFModel strict_validators 1700000000
      [("model_id", VStr "org/name"); ("likes", VInt (-3))] = Valid m /\
    downloads m = 0 /\
    is_active m = true /\
    created_at m = 1700000000 /\
    likes m = -3 /\
    validate_HFModel strict_validators 1700000000
      [("downloads", VInt (-7)); ("model_id", VStr "org/name");
       ("likes", VInt (-3))] = Valid (with_downloads (-7) m).
Proof.
  eexists. split; [reflexivity|].
  pose proof (validate_HFModel_defaults strict_validators 1700000000
                [("model_id", VStr "org/name"); ("likes", VInt (-3))]
                _ (fun z => eq_refl) eq_refl)
    as (Hd & _ & Ha & Hc & _ & Hl & Hany & _).
  split; [exact (Hd eq_refl)|].
  split; [exact (Ha eq_refl)|].
  split; [exact (Hc eq_refl)|].
  split; [exact (Hl (-3) eq_refl)|].
  apply Hany; [|reflexivity].
  intros n Hn. simpl. destruct (String.eqb n "downloads") eqn:E.
  - apply String.eqb_eq in E. contradiction.
  - reflexivity.
Defined.

(* ================================================================== *)
(** ** The fetcher is left as it was *)

(** C10. Neither fetch strategy nor the pipeline changes the timeout or
    the headers of the fetcher, and what a run returns depends on its
    phase results alone: two runs with the same phase results, from
    whatever states, return the same. *)
Theorem model_fetcher_unchanged :
  forall remote st remote' st',
    phase_results remote st = phase_results remote' st' ->
    (forall limit sort_by,
       self (snd (fetch_global_top_models remote limit sort_by st))
         = self st) /\
    (forall pipeline_tag library limit,
       self (snd (fetch_category_specific remote
                    pipeline_tag library limit st)) = self st) /\
    timeout (self (snd (run_etl_pipeline remote st))) = timeout (self st) /\
    headers (self (snd (run_etl_pipeline remote st))) = headers (self st) /\
    fst (run_etl_pipeline remote st) = fst (run_etl_pipeline remote' st').
Proof.
  intros remote st remote' st' Hp. repeat split.
  - intros limit sort_by.
    destruct (fetch_global_top_models_run remote limit sort_by st) as [lg E].
    now rewrite E.
  - intros pipeline_tag library limit.
    destruct (fetch_category_specific_run remote pipeline_tag library limit st)
      as [lg E].
    now rewrite E.
  - now rewrite run_etl_pipeline_self.
  - now rewrite run_etl_pipeline_self.
  - now rewrite !run_etl_pipeline_result, Hp.
Qed.

Lemma model_fetcher_unchanged_witness :
  phase_results remote_scenario fresh_state =
  phase_results
    (scripted 4 (serving scenario_phases))
    (snd (run_etl_pipeline remote_scenario fresh_state)) /\
  fst (run_etl_pipeline remote_scenario fresh_state) =
  fst (run_etl_pipeline
         (scripted 4 (serving scenario_phases))
         (snd (run_etl_pipeline remote_scenario fresh_state))).
Proof.
  assert (Hp : phase_results remote_scenario fresh_state =
               phase_results
                 (scripted 4 (serving scenario_phases))
                 (snd (run_etl_pipeline remote_scenario fresh_state)))
    by (vm_compute; reflexivity).
  split; [exact Hp|].
  exact (proj2 (proj2 (proj2 (proj2 (model_fetcher_unchanged
                  remote_scenario fresh_state
                  (scripted 4 (serving scenario_phases))
                  (snd (run_etl_pipeline remote_scenario fresh_state))
                  Hp))))).
Defined.

(* ================================================================== *)
(** ** How a run ends *)

(** A run either stops in the loop of one phase, after the requests up
    to that phase, or completes the merge of all four results. *)
Lemma run_etl_pipeline_cases remote st :
  exists lg,
    (exists n d e,
       (n < 4)%nat /\
       for_models (List.concat (firstn n (phase_results remote st))) []
         = Ok d /\
       for_models (nth n (phase_results remote st) []) d = Raise e /\
       run_etl_pipeline remote st =
         (Raise e,
          {| self := self st;
             sent := sent st ++ firstn (S n) (etl_requests (self st));
             log := log st ++ lg |})) \/
    (exists d,
       for_models (List.concat (phase_results remote st)) [] = Ok d /\
       run_etl_pipeline remote st =
         (Ok (dict_values d),
          {| self := self st;
             sent := sent st ++ etl_requests (self st);
             log := log st ++ lg
                    ++ [(SUCCESS, EtlComplete (List.length d))] |})).
Proof.
  rewrite phase_results_run.
  remember (run_etl_pipeline remote st) as r eqn:Er. revert Er.
  unfold run_etl_pipeline, bind, logger, lift, ret. cbn [self sent log].
  step_fetch remote.
  destruct (for_models _ []) as [d1|e] eqn:E1.
  2:{ intros ->. exists ([(INFO, PhaseStarted 1)] ++ lg).
      left. exists 0%nat, [], e. split; [lia|].
      split; [reflexivity|]. split; [exact E1|].
      rewrite <- !app_assoc. reflexivity. }
  step_fetch remote.
  destruct (for_models _ d1) as [d2|e] eqn:E2.
  2:{ intros ->.
      exists ([(INFO, PhaseStarted 1)] ++ lg ++ [(INFO, PhaseStarted 2)]
              ++ lg0).
      left. exists 1%nat, d1, e. split; [lia|].
      split; [simpl; rewrite app_nil_r; exact E1|]. split; [exact E2|].
      rewrite <- !app_assoc. reflexivity. }
  step_fetch remote.
  destruct (for_models _ d2) as [d3|e] eqn:E3.
  2:{ intros ->.
      exists ([(INFO, PhaseStarted 1)] ++ lg ++ [(INFO, PhaseStarted 2)]
              ++ lg0 ++ [(INFO, PhaseStarted 3)] ++ lg1).
      left. exists 2%nat, d2, e. split; [lia|].
      split; [simpl; rewrite app_nil_r, for_models_app, E1; exact E2|].
      split; [exact E3|].
      rewrite <- !app_assoc. reflexivity. }
  step_fetch remote.
  destruct (for_models _ d3) as [d4|e] eqn:E4.
  2:{ intros ->.
      exists ([(INFO, PhaseStarted 1)] ++ lg ++ [(INFO, PhaseStarted 2)]
              ++ lg0 ++ [(INFO, PhaseStarted 3)] ++ lg1
              ++ [(INFO, PhaseStarted 4)] ++ lg2).
      left. exists 3%nat, d3, e. split; [lia|].
      split; [simpl; rewrite app_nil_r, for_models_app, E1, for_models_app,
                E2; exact E3|].
      split; [exact E4|].
      rewrite <- !app_assoc. reflexivity. }
  intros ->.
  exists ([(INFO, PhaseStarted 1)] ++ lg ++ [(INFO, PhaseStarted 2)] ++ lg0
          ++ [(INFO, PhaseStarted 3)] ++ lg1 ++ [(INFO, PhaseStarted 4)]
          ++ lg2).
  right. exists d4. split.
  - simpl. rewrite app_nil_r, for_models_app, E1, for_models_app, E2,
      for_models_app, E3. exact E4.
  - rewrite <- !app_assoc. reflexivity.
Qed.

Lemma In_firstn_In {A} (x : A) (n : nat) (l : list A) :
  In x (firstn n l) -> In x l.
Proof.
  revert l. induction n as [|n IH]; intros [|y l] H; simpl in *;
    try contradiction.
  destruct H as [->|H]; [now left | right; now apply IH].
Qed.

(* ================================================================== *)
(** ** The fetch strategies, in every case *)

(** X1. A global fetch never raises.  It sends one request, with the
    configured timeout and headers; a list delivered with a status
    outside 400..599 is returned whole, however long it is, and every
    failure gives the empty list. *)
Theorem fetch_global_top_models_never_raises :
  forall remote limit sort_by st,
  exists data st',
    fetch_global_top_models remote limit sort_by st = (Ok data, st') /\
    sent st' =
      sent st ++
      [ {| req_url := BASE_URL;
           req_params := [("limit", PInt limit); ("sort", PStr sort_by);
                          ("direction", PInt (-1)); ("full", PBool true)];
           req_headers := headers (self st);
           req_timeout := timeout (self st) |} ] /\
    (forall status l,
       remote (sent st) (global_request (self st) limit sort_by)
         = NetResponse status (Some (JList l)) ->
       status < 400 \/ 600 <= status ->
       data = l) /\
    (is_failure (remote (sent st) (global_request (self st) limit sort_by))
       = true ->
     data = []).
Proof.
  intros remote limit sort_by st.
  destruct (fetch_global_top_models_run remote limit sort_by st) as [lg E].
  eexists. eexists. split; [exact E|]. split; [reflexivity|]. split.
  - intros status l Ho Hs. rewrite Ho. simpl.
    destruct ((400 <=? status) && (status <? 600)) eqn:Eb; [|reflexivity].
    apply andb_true_iff in Eb. destruct Eb as [E1 E2].
    apply Z.leb_le in E1. apply Z.ltb_lt in E2. lia.
  - apply fetched_failure.
Qed.

(** X2. A targeted fetch never raises either.  It sends one request
    whose timeout is 25 whatever the configured one, sorted by
    downloads and without the direction and full parameters; an
    exception gives the empty list, and a body delivered with a status
    outside 400..599 is returned as decoded, whatever it is. *)
Theorem fetch_category_specific_never_raises :
  forall remote pipeline_tag library limit st,
  exists result st',
    fetch_category_specific remote pipeline_tag library limit st
      = (Ok result, st') /\
    self st' = self st /\
    sent st' =
      sent st ++
      [ {| req_url := BASE_URL;
           req_params := [("pipeline_tag", PStr pipeline_tag);
                          ("library", PStr library);
                          ("limit", PInt limit);
                          ("sort", PStr "downloads")];
           req_headers := headers (self st);
           req_timeout := 25 |} ] /\
    match remote (sent st)
            (category_request (self st) pipeline_tag library limit) with
    | NetTimeout => result = JList []
    | NetError => result = JList []
    | NetResponse status None => result = JList []
    | NetResponse status (Some data) =>
        if (400 <=? status) && (status <? 600)
        then result = JList []
        else result = data
    end.
Proof.
  intros remote pipeline_tag library limit st.
  destruct (fetch_category_specific_run remote pipeline_tag library limit st)
    as [lg E].
  eexists. eexists. split; [exact E|]. split; [reflexivity|].
  split; [reflexivity|].
  destruct (remote _ _) as [| |status [data|]]; try reflexivity.
  now destruct ((400 <=? status) && (status <? 600)).
Qed.

(** X3. What a global fetch writes to the log: its opening line, then
    an ERROR line for a timeout, another ERROR line for any other
    exception, a SUCCESS line with the number of records for a list,
    and nothing at all for a body that is no list. *)
Theorem fetch_global_top_models_log :
  forall remote limit sort_by st,
    log (snd (fetch_global_top_models remote limit sort_by st)) =
    log st
    ++ (INFO, GlobalFetchInitiated limit sort_by)
    :: match remote (sent st) (global_request (self st) limit sort_by) with
       | NetTimeout => [(ERROR, TimeoutDuringGlobalFetch sort_by)]
       | NetError => [(ERROR, GlobalFetchFailed ConnectionError)]
       | NetResponse status b =>
           if (400 <=? status) && (status <? 600)
           then [(ERROR, GlobalFetchFailed (HTTPError status))]
           else match b with
                | None => [(ERROR, GlobalFetchFailed JSONDecodeError)]
                | Some (JList l) =>
                    [(SUCCESS, Extracted (List.length l) sort_by)]
                | Some _ => []
                end
       end.
Proof.
  intros remote limit sort_by st.
  unfold fetch_global_top_models, try_except, bind, get_self, requests_get,
    logger, raise_for_status, response_json, lift, ret, global_request.
  simpl.
  destruct (remote _ _) as [| |status b]; simpl.
  - now rewrite <- app_assoc.
  - now rewrite <- app_assoc.
  - destruct ((400 <=? status) && (status <? 600)); simpl.
    + now rewrite <- app_assoc.
    + destruct b as [[]|]; simpl; now rewrite <- ?app_assoc.
Qed.

(** X4. The token reaches every request.  A fetcher built from a
    non-empty token sends the header Authorization: Bearer token with
    each request of a run and of a targeted fetch; built without token,
    or from the empty one, it sends no header.  The requests of a run
    carry the timeout the fetcher was built with. *)
Theorem token_on_every_request :
  forall remote HF_TOKEN tmo r,
    let st := {| self := ModelFetcher_init HF_TOKEN tmo;
                 sent := []; log := [] |} in
    (In r (sent (snd (run_etl_pipeline remote st))) ->
     req_timeout r = tmo /\ req_url r = BASE_URL /\
     req_headers r = headers (ModelFetcher_init HF_TOKEN tmo)) /\
    (forall pipeline_tag library limit,
       In r (sent (snd (fetch_category_specific remote
                          pipeline_tag library limit st))) ->
       req_timeout r = 25 /\ req_url r = BASE_URL /\
       req_headers r = headers (ModelFetcher_init HF_TOKEN tmo)) /\
    (HF_TOKEN = None \/ HF_TOKEN = Some "" ->
     headers (ModelFetcher_init HF_TOKEN tmo) = []) /\
    (forall tok, HF_TOKEN = Some tok -> tok <> "" ->
     headers (ModelFetcher_init HF_TOKEN tmo) =
       [("Authorization", ("Bearer " ++ tok)%string)]).
Proof.
  intros remote HF_TOKEN tmo r st. split; [|split; [|split]].
  - intro Hin.
    assert (Hreq : In r (etl_requests (self st))).
    { destruct (run_etl_pipeline_cases remote st) as [lg [H|H]].
      - destruct H as (n & d & e & _ & _ & _ & E). rewrite E in Hin.
        cbn [snd sent] in Hin. unfold st in Hin. cbn [sent app] in Hin.
        eapply In_firstn_In. exact Hin.
      - destruct H as (d & _ & E). rewrite E in Hin. exact Hin. }
    simpl in Hreq.
    destruct Hreq as [<-|[<-|[<-|[<-|[]]]]]; repeat split; reflexivity.
  - intros pipeline_tag library limit Hin.
    destruct (fetch_category_specific_run remote pipeline_tag library limit st)
      as [lg E].
    rewrite E in Hin. simpl in Hin. destruct Hin as [<-|[]].
    repeat split; reflexivity.
  - intros [->| ->]; reflexivity.
  - intros tok -> Hne. simpl.
    destruct (String.eqb tok "") eqn:E; [|reflexivity].
    apply String.eqb_eq in E. contradiction.
Qed.

(* ================================================================== *)
(** ** Runs that meet failures *)

Lemma first_failure_for_models (data : list json) (d : odict) :
  match first_failure data with
  | Some e => for_models data d = Raise e
  | None => exists d', for_models data d = Ok d'
  end.
Proof.
  revert d. induction data as [|r data IH]; intro d; simpl.
  - now exists d.
  - rewrite store_model_key. destruct (model_key r) as [k|e]; [|reflexivity].
    apply IH.
Qed.

Lemma first_failure_None (data : list json) :
  first_failure data = None <-> Forall well_keyed data.
Proof.
  induction data as [|r data IH]; simpl.
  - split; [constructor | reflexivity].
  - destruct (model_key r) as [k|e] eqn:E.
    + rewrite IH. split.
      * intro H. constructor; [now exists k | assumption].
      * intro H. now inversion H.
    + split; [discriminate|]. intro H. inversion H as [|x l [k Hk] Hl]; subst.
      congruence.
Qed.

Lemma model_key_raises (r : json) (e : exn) :
  model_key r = Raise e ->
  (e = AttributeError /\ forall d, r <> JDict d) \/
  (e = TypeError /\
   exists d, r = JDict d /\
             ((exists l, assoc "id" d = Some (JList l)) \/
              (exists d', assoc "id" d = Some (JDict d')))).
Proof.
  unfold model_key, get_id.
  destruct r as [| | | | |d]; simpl; intro H;
    try (left; split; [congruence | intros; discriminate]).
  right. destruct (assoc "id" d) as [[| | | |l|d']|] eqn:E; simpl in H;
    try discriminate; (split; [congruence|]); exists d; (split; [reflexivity|]).
  - left. now exists l.
  - right. now exists d'.
Qed.

Lemma first_failure_kind (data : list json) (e : exn) :
  first_failure data = Some e -> e = AttributeError \/ e = TypeError.
Proof.
  induction data as [|r data IH]; simpl; [discriminate|].
  destruct (model_key r) as [k|e'] eqn:E; [exact IH|].
  intro H. injection H as <-.
  destruct (model_key_raises _ _ E) as [[-> _]|[-> _]]; auto.
Qed.

(** X5. A failed fetch does not stop the run.  When one of the four
    requests fails and the records the other phases deliver are usable,
    that phase contributes nothing, all four requests are sent, and
    the run returns the merge of the other phases' results. *)
Theorem run_etl_pipeline_skips_failed_phase :
  forall remote st n r,
    nth_error (etl_requests (self st)) n = Some r ->
    is_failure
      (remote (sent st ++ firstn n (etl_requests (self st))) r) = true ->
    Forall well_keyed (List.concat (phase_results remote st)) ->
    nth n (phase_results remote st) [] = [] /\
    exists d st',
      for_models
        (List.concat (firstn n (phase_results remote st)
                      ++ skipn (S n) (phase_results remote st))) [] = Ok d /\
      run_etl_pipeline remote st = (Ok (dict_values d), st') /\
      sent st' = sent st ++ etl_requests (self st).
Proof.
  intros remote st n r Hn Hf Hwk.
  assert (Hnth : nth n (phase_results remote st) [] = []).
  { rewrite phase_results_run.
    destruct n as [|[|[|[|n]]]]; simpl in Hn;
      [ | | | | destruct n; discriminate ];
      injection Hn as <-; simpl in Hf; simpl.
    - rewrite app_nil_r in Hf. now apply fetched_failure.
    - now apply fetched_failure.
    - rewrite <- app_assoc. now apply fetched_failure.
    - rewrite <- !app_assoc. now apply fetched_failure. }
  split; [exact Hnth|].
  assert (Hcat : List.concat (firstn n (phase_results remote st)
                              ++ skipn (S n) (phase_results remote st))
                 = List.concat (phase_results remote st)).
  { rewrite phase_results_run in *.
    destruct n as [|[|[|[|n]]]]; simpl in Hnth |- *;
      try rewrite Hnth; rewrite ?app_nil_r; try reflexivity.
    destruct n; discriminate. }
  rewrite Hcat.
  destruct (for_models_total _ [] Hwk) as [d Hd].
  destruct (run_etl_pipeline_cases remote st) as [lg [H|H]].
  - destruct H as (m & d0 & e & Hm & Hd0 & He & _). exfalso.
    assert (Hsplit : List.concat (phase_results remote st) =
                     List.concat (firstn m (phase_results remote st))
                     ++ nth m (phase_results remote st) []
                     ++ List.concat (skipn (S m) (phase_results remote st))).
    { rewrite phase_results_run.
      destruct m as [|[|[|[|m]]]]; simpl; rewrite ?app_nil_r;
        rewrite <- ?app_assoc; try reflexivity; lia. }
    rewrite Hsplit, for_models_app, Hd0, for_models_app, He in Hd.
    discriminate.
  - destruct H as (d1 & Hd1 & E). rewrite Hd in Hd1. injection Hd1 as <-.
    exists d. eexists. split; [exact Hd|]. split; [exact E|]. reflexivity.
Qed.

Lemma run_etl_pipeline_skips_failed_phase_witness :
  exists d st',
    for_models
      (List.concat (firstn 0 (phase_results remote_first_down fresh_state)
                    ++ skipn 1 (phase_results remote_first_down fresh_state)))
      [] = Ok d /\
    run_etl_pipeline remote_first_down fresh_state
      = (Ok (dict_values d), st') /\
    sent st' = sent fresh_state ++ etl_requests (self fresh_state).
Proof.
  apply (run_etl_pipeline_skips_failed_phase remote_first_down fresh_state
           0%nat (global_request (self fresh_state) 1000 "downloads")).
  - reflexivity.
  - reflexivity.
  - assert (Hp : phase_results remote_first_down fresh_state =
                 [[]; [rec_a_second]; []; [rec_b]])
      by (vm_compute; reflexivity).
    rewrite Hp. simpl.
    repeat constructor; eexists; reflexivity.
Defined.

(** X6. When a run raises.  A run raises exactly when some fetched
    element cannot be stored, and it raises what the first such element
    in processing order raises: AttributeError when the element is no
    mapping, TypeError when it is a mapping whose id is a list or a
    mapping.  No failure of the network leaves a run. *)
Theorem run_etl_pipeline_raises_iff :
  forall remote st e,
    (fst (run_etl_pipeline remote st) = Raise e <->
     first_failure (List.concat (phase_results remote st)) = Some e) /\
    (fst (run_etl_pipeline remote st) = Raise e ->
     e = AttributeError \/ e = TypeError) /\
    (forall r,
       model_key r = Raise e ->
       (e = AttributeError /\ forall d, r <> JDict d) \/
       (e = TypeError /\
        exists d, r = JDict d /\
                  ((exists l, assoc "id" d = Some (JList l)) \/
                   (exists d', assoc "id" d = Some (JDict d'))))).
Proof.
  intros remote st e.
  assert (Hiff : fst (run_etl_pipeline remote st) = Raise e <->
                 first_failure (List.concat (phase_results remote st))
                   = Some e).
  { rewrite run_etl_pipeline_result.
    pose proof (first_failure_for_models
                  (List.concat (phase_results remote st)) []) as H.
    destruct (first_failure (List.concat (phase_results remote st)))
      as [e'|].
    - rewrite H. split; congruence.
    - destruct H as [d' ->]. split; discriminate. }
  split; [exact Hiff|]. split.
  - intro H. apply Hiff in H. eapply first_failure_kind; eassumption.
  - intro r. apply model_key_raises.
Qed.

(** X7. Where a raising run stops.  A run that raises has sent the
    requests up to the phase whose loop raised and none after it: the
    results of the phases before were merged, and the loop over that
    phase's result is what raised. *)
Theorem run_etl_pipeline_stops_where_it_raises :
  forall remote st e st',
    run_etl_pipeline remote st = (Raise e, st') ->
    exists n d,
      (n < 4)%nat /\
      sent st' = sent st ++ firstn (S n) (etl_requests (self st)) /\
      for_models (List.concat (firstn n (phase_results remote st))) []
        = Ok d /\
      for_models (nth n (phase_results remote st) []) d = Raise e /\
      ~ Forall well_keyed (nth n (phase_results remote st) []).
Proof.
  intros remote st e st' Hr.
  destruct (run_etl_pipeline_cases remote st) as [lg [H|H]].
  - destruct H as (n & d & e' & Hn & Hd & He & E).
    rewrite E in Hr. injection Hr as -> <-.
    exists n, d. repeat split; try assumption.
    intro Hwk. destruct (for_models_total _ d Hwk) as [d' Hd'].
    congruence.
  - destruct H as (d & _ & E). rewrite E in Hr. discriminate.
Qed.

Lemma run_etl_pipeline_stops_where_it_raises_witness :
  exists n d,
    (n < 4)%nat /\
    sent (snd (run_etl_pipeline remote_list_id fresh_state)) =
      sent fresh_state ++ firstn (S n) (etl_requests (self fresh_state)) /\
    for_models
      (List.concat (firstn n (phase_results remote_list_id fresh_state))) []
      = Ok d /\
    for_models (nth n (phase_results remote_list_id fresh_state) []) d
      = Raise TypeError /\
    ~ Forall well_keyed (nth n (phase_results remote_list_id fresh_state) []).
Proof.
  apply (run_etl_pipeline_stops_where_it_raises remote_list_id fresh_state
           TypeError (snd (run_etl_pipeline remote_list_id fresh_state))).
  vm_compute. reflexivity.
Defined.

Lemma length_first_occurrences (ks : list pykey) :
  (List.length (first_occurrences ks) <= List.length ks)%nat.
Proof.
  induction ks as [|k ks IH]; simpl; [lia|].
  pose proof (filter_length_le (fun k' => negb (pykey_eqb k k'))
                (first_occurrences ks)).
  lia.
Qed.

Lemma length_keys_of (rs : list json) :
  (List.length (keys_of rs) <= List.length rs)%nat.
Proof.
  induction rs as [|r rs IH]; simpl; [lia|].
  destruct (model_key r); simpl; lia.
Qed.

(** X8. The count a run reports.  A run that returns ends its log with
    the SUCCESS line carrying the number of records it returns; that
    number is the number of distinct identifiers fetched, and never
    more than the number of records fetched.  Whatever was in the log
    before stays in front. *)
Theorem run_etl_pipeline_reports_count :
  forall remote st p1 p2 p3 p4 out st',
    phase_results remote st = [p1; p2; p3; p4] ->
    run_etl_pipeline remote st = (Ok out, st') ->
    (exists lg,
       log st' = log st ++ lg ++ [(SUCCESS, EtlComplete (List.length out))]) /\
    List.length out =
      List.length (first_occurrences (keys_of (p1 ++ p2 ++ p3 ++ p4))) /\
    (List.length out <= List.length (p1 ++ p2 ++ p3 ++ p4))%nat.
Proof.
  intros remote st p1 p2 p3 p4 out st' Hp Hr.
  destruct (run_etl_pipeline_merge _ _ _ _ _ _ _ _ Hp Hr) as [d [Hd ->]].
  destruct (merged_dict _ _ Hd) as (_ & _ & Hkeys & _ & _).
  assert (Hlen : List.length (dict_values d) =
                 List.length (first_occurrences
                                (keys_of (p1 ++ p2 ++ p3 ++ p4)))).
  { unfold dict_values. rewrite length_map, <- Hkeys.
    unfold dict_keys. now rewrite length_map. }
  split; [|split].
  - destruct (run_etl_pipeline_cases remote st) as [lg [H|H]].
    + destruct H as (n & d0 & e & _ & _ & _ & E). rewrite E in Hr.
      discriminate.
    + destruct H as (d1 & _ & E). rewrite E in Hr.
      injection Hr as Hv <-. exists lg. simpl.
      unfold dict_values in Hv |- *. rewrite length_map.
      replace (List.length d) with (List.length d1); [reflexivity|].
      rewrite <- (length_map snd d1), <- (length_map snd d). now rewrite Hv.
  - exact Hlen.
  - rewrite Hlen.
    pose proof (length_first_occurrences (keys_of (p1 ++ p2 ++ p3 ++ p4))).
    pose proof (length_keys_of (p1 ++ p2 ++ p3 ++ p4)). lia.
Qed.

Lemma run_etl_pipeline_reports_count_witness :
  (exists lg,
     log (snd (run_etl_pipeline remote_scenario fresh_state)) =
     log fresh_state ++ lg ++ [(SUCCESS, EtlComplete 2)]) /\
  2%nat =
    List.length (first_occurrences
                   (keys_of ([rec_a_first] ++ [rec_a_second] ++ []
                             ++ [rec_b]))) /\
  (2 <= List.length ([rec_a_first] ++ [rec_a_second] ++ [] ++ [rec_b]))%nat.
Proof.
  assert (Hp : phase_results remote_scenario fresh_state =
               [[rec_a_first]; [rec_a_second]; []; [rec_b]])
    by (vm_compute; reflexivity).
  assert (Hr : run_etl_pipeline remote_scenario fresh_state =
               (Ok [rec_a_second; rec_b],
                snd (run_etl_pipeline remote_scenario fresh_state)))
    by (vm_compute; reflexivity).
  exact (run_etl_pipeline_reports_count remote_scenario fresh_state
           [rec_a_first] [rec_a_second] [] [rec_b]
           [rec_a_second; rec_b]
           (snd (run_etl_pipeline remote_scenario fresh_state)) Hp Hr).
Defined.

(* ================================================================== *)
(** ** Repeated and disjoint results *)

Lemma dict_get_absent (k : pykey) (d : odict) :
  ~ In k (dict_keys d) -> dict_get k d = None.
Proof.
  intro H. destruct (dict_get k d) eqn:E; [|reflexivity].
  exfalso. apply H. apply dict_get_in_keys. congruence.
Qed.

(** Two dictionaries with the same keys in the same order and the same
    value under every key are the same. *)
Lemma odict_ext (d1 d2 : odict) :
  dict_keys d1 = dict_keys d2 ->
  NoDup (dict_keys d1) ->
  (forall k, dict_get k d1 = dict_get k d2) ->
  d1 = d2.
Proof.
  revert d2. induction d1 as [|[k v] d1 IH]; intros [|[k2 v2] d2] Hk Hnd Hg;
    simpl in Hk; try discriminate; [reflexivity|].
  injection Hk as <- Hk. inversion Hnd as [|x l Hx Hl]; subst.
  pose proof (Hg k) as Hgk. simpl in Hgk. rewrite pykey_eqb_refl in Hgk.
  injection Hgk as <-. f_equal. apply IH; [assumption | assumption |].
  intro k'. pose proof (Hg k') as Hgk'. simpl in Hgk'.
  destruct (pykey_eqb k' k) eqn:E; [|exact Hgk'].
  apply pykey_eqb_eq in E. subst k'.
  rewrite (dict_get_absent k d1 Hx).
  symmetry. apply dict_get_absent. fold (dict_keys d2). now rewrite <- Hk.
Qed.

Lemma fold_add_key_present (ks acc : list pykey) :
  (forall k, In k ks -> In k acc) ->
  fold_left (fun seen k => add_key k seen) ks acc = acc.
Proof.
  revert acc. induction ks as [|k ks IH]; intros acc H; simpl; [reflexivity|].
  assert (E : add_key k acc = acc).
  { unfold add_key.
    assert (Hk : existsb (pykey_eqb k) acc = true).
    { apply existsb_pykey. apply H. now left. }
    now rewrite Hk. }
  rewrite E. apply IH. intros k' Hk'. apply H. now right.
Qed.

Lemma for_models_again (data : list json) (d d' : odict) :
  NoDup (dict_keys d) ->
  for_models data d = Ok d' ->
  for_models data d' = Ok d'.
Proof.
  intros Hnd H.
  pose proof (for_models_well_keyed _ _ _ H) as Hwk.
  destruct (for_models_total data d' Hwk) as [d2 H2].
  rewrite H2. f_equal.
  pose proof (for_models_NoDup _ _ _ H Hnd) as Hnd'.
  apply odict_ext.
  - rewrite (for_models_keys _ _ _ H2). apply fold_add_key_present.
    intros k Hk. rewrite (for_models_keys _ _ _ H).
    apply In_fold_add_key. now right.
  - eapply for_models_NoDup; eassumption.
  - intro k. rewrite (for_models_get _ _ _ H2 k), (for_models_get _ _ _ H k).
    now destruct (last_with_key k data).
Qed.

(** X9. Merging the same result again changes nothing.  The loop over a
    list, run on the dictionary a loop over that list has produced,
    leaves it as it is; so four phases that deliver the same list give
    what one of them gives. *)
Theorem run_etl_pipeline_same_result_four_times :
  forall remote st p,
    phase_results remote st = [p; p; p; p] ->
    fst (run_etl_pipeline remote st) =
      match for_models p [] with
      | Ok d => Ok (dict_values d)
      | Raise e => Raise e
      end /\
    (forall d d',
       NoDup (dict_keys d) ->
       for_models p d = Ok d' ->
       for_models p d' = Ok d').
Proof.
  intros remote st p Hp. split.
  - rewrite run_etl_pipeline_result, Hp. simpl. rewrite app_nil_r.
    rewrite for_models_app.
    destruct (for_models p []) as [d|e] eqn:E; [|reflexivity].
    pose proof (for_models_again p [] d (NoDup_nil _) E) as Hagain.
    rewrite for_models_app, Hagain.
    rewrite for_models_app, Hagain.
    now rewrite Hagain.
  - intros d d'. apply for_models_again.
Qed.

Lemma run_etl_pipeline_same_result_four_times_witness :
  fst (run_etl_pipeline
         (scripted 0 (serving [[rec_a_first; rec_b]; [rec_a_first; rec_b];
                               [rec_a_first; rec_b]; [rec_a_first; rec_b]]))
         fresh_state) =
  match for_models [rec_a_first; rec_b] [] with
  | Ok d => Ok (dict_values d)
  | Raise e => Raise e
  end.
Proof.
  apply (run_etl_pipeline_same_result_four_times
           (scripted 0 (serving [[rec_a_first; rec_b]; [rec_a_first; rec_b];
                                 [rec_a_first; rec_b]; [rec_a_first; rec_b]]))
           fresh_state [rec_a_first; rec_b]).
  vm_compute. reflexivity.
Defined.

Lemma dict_set_fresh (k : pykey) (v : json) (d : odict) :
  ~ In k (dict_keys d) -> dict_set k v d = d ++ [(k, v)].
Proof.
  induction d as [|[k' v'] d IH]; simpl; intro H; [reflexivity|].
  destruct (pykey_eqb k k') eqn:E.
  - apply pykey_eqb_eq in E. subst. exfalso. auto.
  - f_equal. apply IH. auto.
Qed.

Lemma for_models_fresh (data : list json) (d : odict) :
  Forall well_keyed data ->
  NoDup (dict_keys d ++ keys_of data) ->
  exists d',
    for_models data d = Ok d' /\ dict_values d' = dict_values d ++ data.
Proof.
  intro Hwk. revert d. induction Hwk as [|r data [k Hk] _ IH]; intros d Hnd.
  - exists d. split; [reflexivity|]. now rewrite app_nil_r.
  - simpl in *. rewrite Hk in Hnd. rewrite store_model_key, Hk.
    assert (Hfresh : ~ In k (dict_keys d)).
    { apply NoDup_remove_2 in Hnd. intro Hin. apply Hnd.
      apply in_or_app. now left. }
    rewrite (dict_set_fresh _ _ _ Hfresh).
    destruct (IH (d ++ [(k, r)])) as [d' [Hd' Hv]].
    + unfold dict_keys. rewrite map_app. simpl.
      rewrite <- app_assoc. exact Hnd.
    + exists d'. split; [exact Hd'|]. rewrite Hv.
      unfold dict_values. rewrite map_app. simpl.
      now rewrite <- app_assoc.
Qed.

(** X10. Without a repeated identifier nothing is merged: when the
    fetched records are usable and no two of them have the same
    identifier, the run returns the four phase results one after the
    other, unchanged. *)
Theorem run_etl_pipeline_disjoint_results :
  forall remote st p1 p2 p3 p4,
    phase_results remote st = [p1; p2; p3; p4] ->
    Forall well_keyed (p1 ++ p2 ++ p3 ++ p4) ->
    NoDup (keys_of (p1 ++ p2 ++ p3 ++ p4)) ->
    fst (run_etl_pipeline remote st) = Ok (p1 ++ p2 ++ p3 ++ p4).
Proof.
  intros remote st p1 p2 p3 p4 Hp Hwk Hnd.
  rewrite run_etl_pipeline_result, Hp. simpl. rewrite app_nil_r.
  destruct (for_models_fresh _ [] Hwk Hnd) as [d [Hd Hv]].
  rewrite Hd. f_equal. exact Hv.
Qed.

Lemma run_etl_pipeline_disjoint_results_witness :
  fst (run_etl_pipeline
         (scripted 0 (serving [[rec_a_first]; []; [rec_b]; [rec_no_id]]))
         fresh_state)
  = Ok ([rec_a_first] ++ [] ++ [rec_b] ++ [rec_no_id]).
Proof.
  apply (run_etl_pipeline_disjoint_results
           (scripted 0 (serving [[rec_a_first]; []; [rec_b]; [rec_no_id]]))
           fresh_state [rec_a_first] [] [rec_b] [rec_no_id]).
  - vm_compute. reflexivity.
  - simpl. repeat constructor; eexists; reflexivity.
  - simpl. repeat constructor; simpl; intuition discriminate.
Defined.

(* ================================================================== *)
(** ** The demo entry point *)

Lemma well_keyed_is_dict (r : json) (k : pykey) :
  model_key r = Ok k -> exists d, r = JDict d.
Proof.
  unfold model_key, get_id. destruct r; try discriminate.
  intros _. eexists. reflexivity.
Qed.

Lemma all_fail_phase_results remote st :
  (forall n r,
     nth_error (etl_requests (self st)) n = Some r ->
     is_failure
       (remote (sent st ++ firstn n (etl_requests (self st))) r) = true) ->
  phase_results remote st = [[]; []; []; []].
Proof.
  intro H. rewrite phase_results_run.
  pose proof (H 0%nat _ eq_refl) as H0.
  pose proof (H 1%nat _ eq_refl) as H1.
  pose proof (H 2%nat _ eq_refl) as H2.
  pose proof (H 3%nat _ eq_refl) as H3.
  simpl in H0, H1, H2, H3. rewrite app_nil_r in H0.
  rewrite <- !app_assoc. simpl.
  now rewrite (fetched_failure _ H0), (fetched_failure _ H1),
    (fetched_failure _ H2), (fetched_failure _ H3).
Qed.

(** What a run returns, with the dictionary it was read from. *)
Lemma run_etl_pipeline_returns remote st out st' :
  run_etl_pipeline remote st = (Ok out, st') ->
  exists d,
    for_models (List.concat (phase_results remote st)) [] = Ok d /\
    out = dict_values d.
Proof.
  intro Hr. pose proof (run_etl_pipeline_result remote st) as H.
  rewrite Hr in H. simpl in H.
  destruct (for_models (List.concat (phase_results remote st)) [])
    as [d|e]; [|discriminate].
  exists d. split; [reflexivity | congruence].
Qed.

(** X11. The demo never ends in a network failure: the only exceptions
    that leave it through the pipeline are the AttributeError and the
    TypeError of the phase loops, its own subscript never raises a
    TypeError, and when all four fetches fail it prints No Data. *)
Theorem main_survives_the_network :
  forall remote HF_TOKEN,
    let st := {| self := ModelFetcher_init HF_TOKEN default_timeout;
                 sent := []; log := [] |} in
    (forall e,
       fst (main remote HF_TOKEN) = Uncaught e ->
       (e = AttributeError \/ e = TypeError) /\
       fst (run_etl_pipeline remote st) = Raise e) /\
    ((forall n r,
        nth_error (etl_requests (self st)) n = Some r ->
        is_failure (remote (firstn n (etl_requests (self st))) r) = true) ->
     fst (main remote HF_TOKEN) = Printed NoData).
Proof.
  intros remote HF_TOKEN st. split.
  - intros e. unfold main. fold st.
    destruct (run_etl_pipeline remote st) as [[out|e'] st'] eqn:Hr.
    + destruct (run_etl_pipeline_returns _ _ _ _ Hr) as [d [Hd ->]].
      destruct (merged_dict _ _ Hd) as (Hok & _).
      destruct d as [|[k v] d]; simpl; [discriminate|].
      inversion Hok as [|x l Hv _]; subst. simpl in Hv.
      destruct (well_keyed_is_dict _ _ Hv) as [dv ->].
      destruct (assoc "id" dv); discriminate.
    + simpl. intro H. injection H as ->. split; [|reflexivity].
      pose proof (run_etl_pipeline_result remote st) as H.
      rewrite Hr in H. simpl in H.
      pose proof (first_failure_for_models
                    (List.concat (phase_results remote st)) []) as Hf.
      destruct (first_failure (List.concat (phase_results remote st)))
        as [e0|] eqn:E0.
      * rewrite Hf in H. injection H as ->.
        eapply first_failure_kind; eassumption.
      * destruct Hf as [d' Hd']. rewrite Hd' in H. discriminate.
  - intro Hfail. unfold main. fold st.
    assert (Hp : phase_results remote st = [[]; []; []; []]).
    { apply all_fail_phase_results. exact Hfail. }
    pose proof (run_etl_pipeline_result remote st) as H.
    rewrite Hp in H. simpl in H.
    destruct (run_etl_pipeline remote st) as [res st'].
    simpl in H. subst res. reflexivity.
Qed.

(** X12. What the demo shows.  When the fetched records are usable, the
    demo looks at the record last written for the identifier seen
    first: it prints that record's id field, and it ends in a KeyError
    when that record has no id field, although the pipeline accepted
    the record. *)
Theorem main_shows_first_identifier :
  forall remote HF_TOKEN r rest k,
    List.concat
      (phase_results remote
         {| self := ModelFetcher_init HF_TOKEN default_timeout;
            sent := []; log := [] |}) = r :: rest ->
    Forall well_keyed (r :: rest) ->
    model_key r = Ok k ->
    exists d,
      last_with_key k (r :: rest) = Some (JDict d) /\
      fst (main remote HF_TOKEN) =
        match assoc "id" d with
        | Some v => Printed (SampleId v)
        | None => UncaughtKeyError "id"
        end.
Proof.
  intros remote HF_TOKEN r rest k Hall Hwk Hk.
  destruct (for_models_total _ [] Hwk) as [dd Hdd].
  destruct (merged_dict _ _ Hdd) as (Hok & Hnd & Hkeys & Hget & _).
  simpl in Hkeys. rewrite Hk in Hkeys. simpl in Hkeys.
  destruct dd as [|[k' v] dd]; [discriminate|].
  simpl in Hkeys. injection Hkeys as -> _.
  pose proof (Hget k) as Hg. cbn [dict_get] in Hg.
  rewrite pykey_eqb_refl in Hg.
  inversion Hok as [|x l Hv _]; subst. simpl in Hv.
  destruct (well_keyed_is_dict _ _ Hv) as [dv ->].
  exists dv. split; [symmetry; exact Hg|].
  unfold main.
  pose proof (run_etl_pipeline_result remote
                {| self := ModelFetcher_init HF_TOKEN default_timeout;
                   sent := []; log := [] |}) as H.
  rewrite Hall, Hdd in H.
  destruct (run_etl_pipeline remote _) as [res st'].
  simpl in H. subst res. simpl.
  now destruct (assoc "id" dv).
Qed.

Lemma main_shows_first_identifier_witness :
  exists d,
    last_with_key KNone [rec_no_id] = Some (JDict d) /\
    fst (main remote_no_id None) =
      match assoc "id" d with
      | Some v => Printed (SampleId v)
      | None => UncaughtKeyError "id"
      end.
Proof.
  apply (main_shows_first_identifier remote_no_id None rec_no_id [] KNone).
  - vm_compute. reflexivity.
  - repeat constructor. eexists. reflexivity.
  - reflexivity.
Defined.

(* ================================================================== *)
(** ** The schemas, for any type validation *)

(** X13. Validation of an HFModel reads the ten declared fields and
    nothing else: two inputs that give the same for each of them are
    treated alike, whatever else they hold. *)
Theorem validate_HFModel_declared_fields_only :
  forall V now a b,
    (forall n, In n HFModel_fields -> kwarg n a = kwarg n b) ->
    validate_HFModel V now a = validate_HFModel V now b.
Proof.
  intros V now a b H. unfold validate_HFModel.
  rewrite (required_agree _ "model_id" b a),
    !(with_default_agree _ _ _ b a);
    try (apply H; unfold HFModel_fields; simpl; tauto).
  reflexivity.
Qed.

Lemma validate_HFModel_declared_fields_only_witness :
  validate_HFModel strict_validators 5
    [("model_id", VStr "org/name"); ("nickname", VStr "x")] =
  validate_HFModel strict_validators 5
    [("tags", VNone); ("model_id", VStr "org/name")].
Proof.
  apply validate_HFModel_declared_fields_only.
  intros n Hn. unfold HFModel_fields in Hn. simpl in Hn.
  repeat (destruct Hn as [<-|Hn]; [reflexivity|]). contradiction.
Defined.

(** X14. The identifier is the one field an HFModel cannot do without:
    an input that gives a string for model_id and nothing else is
    accepted, every other field taking its default, and an input that
    gives no model_id is never accepted. *)
Theorem validate_HFModel_only_model_id_required :
  forall V now s,
    validate_str V (VStr s) = Some s ->
    validate_HFModel V now [("model_id", VStr s)] =
      Valid {| model_id := s; pipeline_tag := None; library_name := None;
               author := None; downloads := 0; likes := 0;
               private := false; is_active := true;
               last_modified := None; created_at := now |} /\
    (forall input m,
       kwarg "model_id" input = None ->
       validate_HFModel V now input <> Valid m).
Proof.
  intros V now s Hs. split.
  - unfold validate_HFModel, required, with_default, as_str. simpl.
    now rewrite Hs.
  - intros input m Hnone. unfold validate_HFModel, required.
    rewrite Hnone. simpl. discriminate.
Qed.

Lemma validate_HFModel_only_model_id_required_witness :
  validate_HFModel strict_validators 5 [("model_id", VStr "org/name")] =
    Valid {| model_id := "org/name"; pipeline_tag := None;
             library_name := None; author := None;
             downloads := 0; likes := 0;
             private := false; is_active := true;
             last_modified := None; created_at := 5 |}.
Proof.
  apply (validate_HFModel_only_model_id_required strict_validators 5
           "org/name").
  reflexivity.
Defined.

Lemma required_field_given {A}
    (check : string -> field_value -> validated A) name input a :
  required_field check name input = Valid a -> field name input <> None.
Proof.
  unfold required_field. destruct (field name input); [discriminate|].
  discriminate.
Qed.

Lemma default_field_absent {A}
    (check : string -> field_value -> validated A) name (default : A) input :
  field name input = None ->
  default_field check name default input = Valid default.
Proof. intro H. unfold default_field. now rewrite H. Qed.

(** X15. A snapshot has to be given its pipeline_tag, though the tag
    may be None, and its downloads and likes, which have no default
    here: an accepted input holds all six of id, model_id,
    snapshot_date, pipeline_tag, downloads and likes; None for
    pipeline_tag is kept as None; is_active is true when omitted. *)
Theorem validate_ModelSnapshot_required_fields :
  forall W input m,
    validate_ModelSnapshot W input = Valid m ->
    field "id" input <> None /\
    field "model_id" input <> None /\
    field "snapshot_date" input <> None /\
    field "pipeline_tag" input <> None /\
    field "downloads" input <> None /\
    field "likes" input <> None /\
    (field "pipeline_tag" input = Some (Plain VNone) ->
     snap_pipeline_tag m = None) /\
    (field "is_active" input = None -> snap_is_active m = true).
Proof.
  intros W input m. unfold validate_ModelSnapshot, vbind.
  destruct (required_field (checked (fv_int W)) "id" input) eqn:E1;
    [|discriminate].
  destruct (required_field (checked (fv_str W)) "model_id" input) eqn:E2;
    [|discriminate].
  destruct (required_field (checked (fv_date W)) "snapshot_date" input)
    eqn:E3; [|discriminate].
  destruct (required_field (checked_optional (fv_str W)) "pipeline_tag" input)
    eqn:E4; [|discriminate].
  destruct (required_field (checked (fv_int W)) "downloads" input) eqn:E5;
    [|discriminate].
  destruct (required_field (checked (fv_int W)) "likes" input) eqn:E6;
    [|discriminate].
  destruct (default_field (checked (fv_bool W)) "is_active" true input)
    eqn:E7; [|discriminate].
  intro H. injection H as <-. simpl.
  repeat split; try (eapply required_field_given; eassumption).
  - intro Hn. unfold required_field in E4. rewrite Hn in E4.
    simpl in E4. congruence.
  - intro Hn. rewrite (default_field_absent _ _ _ _ Hn) in E7. congruence.
Qed.

Lemma validate_ModelSnapshot_required_fields_witness :
  exists m,
    validate_ModelSnapshot strict_field_validators snapshot_input = Valid m /\
    field "pipeline_tag" snapshot_input <> None /\
    snap_pipeline_tag m = None /\
    snap_is_active m = true.
Proof.
  eexists. split; [reflexivity|].
  pose proof (validate_ModelSnapshot_required_fields
                strict_field_validators snapshot_input _ eq_refl)
    as (_ & _ & _ & Ht & _ & _ & Hn & Ha).
  split; [exact Ht|]. split; [exact (Hn eq_refl) | exact (Ha eq_refl)].
Defined.


